(** * aspope/stuff: the echo server and the pyaudio TCP audio relay

  A shallow embedding of [echo-server/bin/echo-server.py] and of
  [pyaudio_trx/trx.py], and the properties their specification states
  about them.

  Byte strings are [list byte].  Calls into the operating system and
  into PyAudio are recorded as events of a trace, oldest first; what
  the environment answers (bytes waiting on a socket, the results of
  successive [accept] and [recv] calls, the samples of a capture
  device) is an explicit part of the state the functions run in. *)

From Stdlib Require Import Strings.String Strings.Byte DecimalString.
From Stdlib Require Import ZArith List Bool Lia.
From Stdlib Require Import Floats.SpecFloat.
Import ListNotations.
Local Open Scope Z_scope.

Definition bytes := list byte.

(** ** Python's [bytes.strip()] / [str.strip()] with no argument *)

Module PyBytes.

(** The six ASCII whitespace bytes [b' \t\n\r\x0b\x0c']. *)
Definition is_space (b : byte) : bool :=
  match b with
  | x20 | x09 | x0a | x0d | x0b | x0c => true
  | _ => false
  end.

Fixpoint lstrip (s : bytes) : bytes :=
  match s with
  | b :: s' => if is_space b then lstrip s' else s
  | [] => []
  end.

Definition rstrip (s : bytes) : bytes := rev (lstrip (rev s)).

Definition strip (s : bytes) : bytes := rstrip (lstrip s).

(** First and last byte of a non-empty string are not whitespace. *)
Definition clean_edges (s : bytes) : bool :=
  match s with
  | [] => true
  | b :: _ => negb (is_space b) && negb (is_space (last s b))
  end.

End PyBytes.

(** ** echo-server.py *)

Module EchoServer.
Import PyBytes.

(** What the handler does to the outside world. *)
Inductive event :=
| EvRecv (bufsize : Z)            (* self.request.recv(bufsize) *)
| EvPrint (line : string)         (* print(line) *)
| EvPrintData (d : bytes)         (* print(self.data, flush=True) *)
| EvSendall (d : bytes).          (* self.request.sendall(d) *)

(** [socketserver.BaseRequestHandler]: the connected socket (the bytes
    the client has sent on it), the client's address, and the [data]
    attribute [handle] sets. *)
Record EchoTCPHandler := {
  request : bytes;
  client_address : string * Z;
  data : bytes
}.

(** [socket.recv(bufsize)]: at most [bufsize] of the pending bytes
    (what the client sent is taken to have arrived). *)
Definition recv (pending : bytes) (bufsize : Z) : bytes :=
  firstn (Z.to_nat bufsize) pending.

Definition handle (self : EchoTCPHandler) : EchoTCPHandler * list event :=
  let d := strip (recv (request self) 1024) in
  ({| request := skipn 1024 (request self);
      client_address := client_address self;
      data := d |},
   [EvRecv 1024; EvPrint (fst (client_address self) ++ " wrote:")%string;
    EvPrintData d; EvSendall d]).

(** One connection served by [TCPServer]: a handler is built for the
    accepted socket and [handle] runs once. *)
Definition serve (sent : bytes) (addr : string * Z) : list event :=
  snd (handle {| request := sent; client_address := addr; data := [] |}).

(** The bytes the client gets back. *)
Definition returned (tr : list event) : bytes :=
  concat (map (fun e => match e with EvSendall d => d | _ => [] end) tr).

(** The three bytes [b"hi\n"]. *)
Definition hi_newline : bytes := [x68; x69; x0a].

End EchoServer.

(** ** pyaudio_trx/trx.py *)

Module Trx.

(** The module does not say which interpreter it is written for, and two
    of its expressions mean different things under the two: [/] between
    integers (floor division in Python 2, binary64 true division in
    Python 3) and the comparison of what [recv] returns with the [str]
    literal [''] ([recv] returns [str] in Python 2, [bytes] in
    Python 3, and a [bytes] never equals a [str]).  Its idiom
    ([class BaseAudio(object)], the [''] end-of-stream test) is
    Python 2's.  The interpreter is a parameter of the model. *)
Inductive python := Python2 | Python3.

Inductive exn :=
| socket_timeout                      (* socket.timeout *)
| socket_error (errno : Z)            (* socket.error with e.errno *)
| NameError (name : string)
| UnboundLocalError (name : string)
| AttributeError (name : string)
| ValueError
| ZeroDivisionError
| OverflowError
| wave_Error                          (* wave.Error *)
| KeyboardInterrupt.

(** [errno.EINTR] *)
Definition EINTR : Z := 4.

(** *** Numbers *)

(** ["%d" % n] *)
Definition string_of_Z (n : Z) : string := NilZero.string_of_int (Z.to_int n).

(** binary64 *)
Definition prec : Z := 53.
Definition emax : Z := 1024.

(** An integer as an exactly represented (not necessarily normalised)
    float operand. *)
Definition exact_of_Z (n : Z) : spec_float :=
  match n with
  | Z0 => S754_zero false
  | Zpos p => S754_finite false p 0
  | Zneg p => S754_finite true p 0
  end.

(** Python 3 [a / b] on ints: the correctly rounded quotient,
    [ZeroDivisionError] for [b = 0], [OverflowError] when the quotient
    is too large for a float. *)
Definition true_div (a b : Z) : exn + spec_float :=
  if b =? 0 then inl ZeroDivisionError
  else match SFdiv prec emax (exact_of_Z a) (exact_of_Z b) with
       | S754_infinity _ => inl OverflowError
       | q => inr q
       end.

(** An int operand of a float operation: rounded to nearest,
    [OverflowError] when too large. *)
Definition float_of_int (n : Z) : exn + spec_float :=
  match binary_normalize prec emax n 0 false with
  | S754_infinity _ => inl OverflowError
  | f => inr f
  end.

(** [int(x)] on a float: truncation toward zero. *)
Definition int_of_float (x : spec_float) : exn + Z :=
  match x with
  | S754_zero _ => inr 0
  | S754_infinity _ => inl OverflowError
  | S754_nan => inl ValueError
  | S754_finite s m e =>
      let a := match e with
               | Zneg k => Z.shiftr (Zpos m) (Zpos k)
               | _ => Z.shiftl (Zpos m) e
               end in
      inr (if s then - a else a)
  end.

(** [int(rate / chunk_size * duration)], the bound of the loop of
    [send_frames_with_time_limit], on the integers the argument parser
    hands over. *)
Definition frames_to_send (py : python) (rate chunk_size duration : Z)
  : exn + Z :=
  match py with
  | Python2 =>
      if chunk_size =? 0 then inl ZeroDivisionError
      else inr (rate / chunk_size * duration)
  | Python3 =>
      match true_div rate chunk_size with
      | inl e => inl e
      | inr q =>
          match float_of_int duration with
          | inl e => inl e
          | inr d => int_of_float (SFmul prec emax q d)
          end
      end
  end.

(** [data != ''] on what [recv] returned. *)
Definition differs_from_empty_str (py : python) (data : bytes) : bool :=
  match py with
  | Python2 => match data with [] => false | _ => true end
  | Python3 => true
  end.

(** *** PyAudio, sockets and wave files *)

(** PortAudio sample formats and [pyaudio.get_sample_size],
    [pyaudio.get_format_from_width] (with its default [unsigned=True]). *)
Inductive sample_format :=
  paFloat32 | paInt32 | paInt24 | paInt16 | paInt8 | paUInt8.

Definition get_sample_size (f : sample_format) : Z :=
  match f with
  | paFloat32 | paInt32 => 4
  | paInt24 => 3
  | paInt16 => 2
  | paInt8 | paUInt8 => 1
  end.

Definition get_format_from_width (width : Z) : exn + sample_format :=
  match width with
  | 1 => inr paUInt8
  | 2 => inr paInt16
  | 3 => inr paInt24
  | 4 => inr paFloat32
  | _ => inl ValueError
  end.

(** A [pyaudio.Stream]: the arguments [PyAudio.open] was given, and a
    number that tells the streams of one run apart. *)
Record Stream := {
  stream_id : nat;
  s_format : sample_format;
  s_channels : Z;
  s_rate : Z;
  s_input : bool;
  s_device_index : option Z;
  s_frames_per_buffer : Z
}.

(** A [wave.Wave_write]: the header fields and the frames written. *)
Record Wave_write := {
  wf_filename : string;
  nchannels : Z;
  sampwidth : Z;
  framerate : Z;
  frames : bytes
}.

Definition address : Type := string * Z.

(** [str(addr)] of a [(host, port)] pair (hosts without quotes or
    escapes, as IP addresses are). *)
Definition str_address (a : address) : string :=
  ("('" ++ fst a ++ "', " ++ string_of_Z (snd a) ++ ")")%string.

(** What one [accept()] on the listening socket, and one [recv()] on a
    connection, comes back with.  Connections are numbered. *)
Inductive accept_result :=
| Accepted (conn : nat) (addr : address)
| AcceptRaises (e : exn).

Inductive recv_result :=
| Received (data : bytes)
| RecvRaises (e : exn).

Inductive level := DEBUG | INFO | WARNING.

(** The calls made on the outside world, in the order they are made.
    A call on PyAudio, on a stream or on the socket returns; the calls
    whose answer the program looks at ([accept], [recv]) carry it. *)

Inductive event :=
| EvLog (lvl : level) (msg : string)
| EvPyAudio                                (* pyaudio.PyAudio() *)
| EvSocket                                 (* socket.socket(AF_INET, SOCK_STREAM) *)
| EvSettimeout (t : spec_float)
| EvSignal (signum : Z)                    (* signal.signal(signum, handle_signal) *)
| EvBind (h : string) (p : Z)
| EvListen (backlog : Z)
| EvAccept (r : accept_result)
| EvConnect (h : string) (p : Z)
| EvRecv (conn : nat) (bufsize : Z) (r : recv_result)
| EvSendall (d : bytes)
| EvSockClose
| EvOpen (s : Stream)                      (* PyAudio.open(...) *)
| EvRead (sid : nat) (num_frames : Z)
| EvWrite (sid : nat) (d : bytes)
| EvStopStream (sid : nat)
| EvStreamClose (sid : nat)
| EvTerminate
| EvWaveOpen (filename : string)
| EvWriteframes (filename : string) (d : bytes)
| EvWaveClose (filename : string)
| EvServe (conn : nat)                     (* receive_audio(conn) is entered *)
| EvServed (conn : nat).                   (* receive_audio(conn) has returned *)

(** The attributes of a [BaseAudio] instance ([wf] is
    [AudioReceiver]'s).  [audio], [sock], [stream] and [wf] are [None]
    until set; the objects they hold are always true in a condition. *)
Record BaseAudio := {
  chunk_size : Z;
  channels : Z;
  device_index : option Z;
  duration : option Z;
  rate : Z;
  host : string;
  port : Z;
  format : sample_format;
  audio : option unit;
  sock : option unit;
  stream : option Stream;
  wf : option Wave_write
}.

(** [AudioReceiver.width] *)
Definition width : Z := 2.

(** The program state: the instance, and the environment it runs in:
    what the reads on each connection will return (an exhausted list is
    a peer that has closed: every further read returns the empty
    string), the samples of the capture device and how many of them
    have been read, and the number of streams opened so far. *)
Record state := {
  self : BaseAudio;
  conns : nat -> list recv_result;
  mic : nat -> byte;
  mic_pos : nat;
  opened : nat
}.

Definition set_self (o : BaseAudio) (st : state) : state :=
  {| self := o; conns := conns st; mic := mic st; mic_pos := mic_pos st;
     opened := opened st |}.

Definition set_stream (s : option Stream) (o : BaseAudio) : BaseAudio :=
  {| chunk_size := chunk_size o; channels := channels o;
     device_index := device_index o; duration := duration o;
     rate := rate o; host := host o; port := port o; format := format o;
     audio := audio o; sock := sock o; stream := s; wf := wf o |}.

Definition set_wf (f : option Wave_write) (o : BaseAudio) : BaseAudio :=
  {| chunk_size := chunk_size o; channels := channels o;
     device_index := device_index o; duration := duration o;
     rate := rate o; host := host o; port := port o; format := format o;
     audio := audio o; sock := sock o; stream := stream o; wf := f |}.

Definition set_conn (c : nat) (l : list recv_result) (st : state) : state :=
  {| self := self st;
     conns := fun c' => if Nat.eqb c' c then l else conns st c';
     mic := mic st; mic_pos := mic_pos st; opened := opened st |}.

(** *** The monad: state, exceptions, and the events emitted *)

Inductive outcome (A : Type) :=
| Ret (a : A)        (* returned *)
| Raise (e : exn)    (* raised *)
| Running.           (* has not returned: the events are those of the
                        observed part of a run that goes on *)
Arguments Ret {A} a.
Arguments Raise {A} e.
Arguments Running {A}.

Definition M (A : Type) : Type := state -> outcome A * state * list event.

Definition ret {A} (a : A) : M A := fun st => (Ret a, st, []).
Definition raise {A} (e : exn) : M A := fun st => (Raise e, st, []).
Definition running {A} : M A := fun st => (Running, st, []).

(** The events [t] happened before those of the run [r]. *)
Definition prepend {A} (t : list event) (r : outcome A * state * list event)
  : outcome A * state * list event :=
  let '(o, st, t') := r in (o, st, t ++ t').

Definition bind {A B} (m : M A) (k : A -> M B) : M B := fun st =>
  match m st with
  | (Ret a, st1, t1) => prepend t1 (k a st1)
  | (Raise e, st1, t1) => (Raise e, st1, t1)
  | (Running, st1, t1) => (Running, st1, t1)
  end.

(** [try: m  except <those matched by h>: h e] *)
Definition try_except {A} (m : M A) (h : exn -> option (M A)) : M A :=
  fun st =>
  match m st with
  | (Raise e, st1, t1) =>
      match h e with
      | Some k => prepend t1 (k st1)
      | None => (Raise e, st1, t1)
      end
  | r => r
  end.

Definition emit (e : event) : M unit := fun st => (Ret tt, st, [e]).
Definition get : M state := fun st => (Ret st, st, []).
Definition put (st : state) : M unit := fun _ => (Ret tt, st, []).
Definition lift {A} (r : exn + A) : M A :=
  match r with inl e => raise e | inr a => ret a end.

Declare Scope py_scope.
Delimit Scope py_scope with py.
Notation "x <- m ;; k" := (bind m (fun x => k))
  (at level 61, m at next level, right associativity) : py_scope.
Notation "m ;; k" := (bind m (fun _ => k))
  (at level 61, right associativity) : py_scope.
Local Open Scope py_scope.

Definition log (lvl : level) (msg : string) : M unit := emit (EvLog lvl msg).

Definition get_self : M BaseAudio := fun st => (Ret (self st), st, []).
Definition put_self (o : BaseAudio) : M unit :=
  fun st => (Ret tt, set_self o st, []).

(** Names bound at module level: the imports, the three classes, and
    what the [__main__] block assigns.  Reading any other global name
    raises [NameError]. *)
Definition module_globals : list string :=
  ["argparse"; "errno"; "logging"; "pyaudio"; "signal"; "socket"; "sys";
   "time"; "wave"; "BaseAudio"; "AudioReceiver"; "AudioSender"; "parser";
   "actions"; "audio"; "sender"; "network"; "args"; "log"; "formatter";
   "loglevel"; "stream_handler"; "file_handler"; "tx"; "rx"]%string.

Definition global_name (name : string) : M unit :=
  if existsb (String.eqb name) module_globals then ret tt
  else raise (NameError name).

(** *** class BaseAudio *)

Definition new_instance (duration : option Z) (channels rate chunk_size : Z)
    (host : string) (port : Z) (device_index : option Z) : BaseAudio :=
  {| chunk_size := chunk_size; channels := channels;
     device_index := device_index; duration := duration;
     rate := rate; host := host; port := port;
     format := paInt16;
     audio := Some tt; sock := Some tt; stream := None;
     wf := None |}.

Definition init (duration : option Z) (channels rate chunk_size : Z)
    (host : string) (port : Z) (device_index : option Z)
    (sock_timeout : spec_float) : M unit :=
  emit EvPyAudio ;;
  emit EvSocket ;;
  emit (EvSettimeout sock_timeout) ;;
  put_self (new_instance duration channels rate chunk_size host port
              device_index).

Definition shutdown : M unit :=
  log INFO "Shutting down" ;;
  o <- get_self ;;
  match stream o with
  | Some s => emit (EvStopStream (stream_id s)) ;;
              emit (EvStreamClose (stream_id s))
  | None => ret tt
  end ;;
  match audio o with
  | Some _ => emit EvTerminate
  | None => ret tt
  end ;;
  match sock o with
  | Some _ => emit EvSockClose
  | None => ret tt
  end.

Definition handle_signal (signum : Z) : M unit :=
  log WARNING ("Received signal " ++ string_of_Z signum) ;;
  shutdown.

(** The state once stream [s] has been opened and stored in
    [self.stream]. *)
Definition with_stream (s : Stream) (st : state) : state :=
  {| self := set_stream (Some s) (self st); conns := conns st;
     mic := mic st; mic_pos := mic_pos st; opened := S (opened st) |}.

(** [self.audio.open(...)] and [self.stream = ] its result. *)
Definition audio_open (fmt : sample_format) (input : bool) : M unit :=
  fun st =>
  let o := self st in
  match audio o with
  | None => (Raise (AttributeError "open"), st, [])
  | Some _ =>
      let s := {| stream_id := opened st; s_format := fmt;
                  s_channels := channels o; s_rate := rate o;
                  s_input := input; s_device_index := device_index o;
                  s_frames_per_buffer := chunk_size o |} in
      (Ret tt, with_stream s st, [EvOpen s])
  end.

(** [self.stream.write(data)], [.stop_stream()], [.close()] *)
Definition stream_write (data : bytes) : M unit :=
  o <- get_self ;;
  match stream o with
  | Some s => emit (EvWrite (stream_id s) data)
  | None => raise (AttributeError "write")
  end.

Definition stream_stop_and_close : M unit :=
  o <- get_self ;;
  match stream o with
  | Some s => emit (EvStopStream (stream_id s)) ;;
              emit (EvStreamClose (stream_id s))
  | None => raise (AttributeError "stop_stream")
  end.

(** The state after [n] more bytes of the device have been read. *)
Definition advance (n : nat) (st : state) : state :=
  {| self := self st; conns := conns st; mic := mic st;
     mic_pos := (mic_pos st + n)%nat; opened := opened st |}.

(** [self.stream.read(num_frames)]: the next
    [num_frames * channels * sample size] bytes of the device, as
    PyAudio's blocking read returns them. *)
Definition stream_read (num_frames : Z) : M bytes := fun st =>
  match stream (self st) with
  | None => (Raise (AttributeError "read"), st, [])
  | Some s =>
      let n := Z.to_nat (num_frames * s_channels s
                         * get_sample_size (s_format s)) in
      (Ret (map (mic st) (seq (mic_pos st) n)), advance n st,
       [EvRead (stream_id s) num_frames])
  end.

(** *** class AudioReceiver *)

Module AudioReceiver.

Definition open_audio_stream : M unit :=
  o <- get_self ;;
  match audio o with
  | None => raise (AttributeError "open")
  | Some _ =>
      fmt <- lift (get_format_from_width width) ;;
      audio_open fmt false
  end.

(** [if self.wf: wf.writeframes(data)]: the call is on the global name
    [wf], not on the attribute. *)
Definition write_to_wave_file (data : bytes) : M unit :=
  o <- get_self ;;
  match wf o with
  | Some _ => global_name "wf" ;; raise (AttributeError "writeframes")
  | None => ret tt
  end.

(** [conn.recv(bufsize)] *)
Definition recv (conn : nat) (bufsize : Z) : M bytes := fun st =>
  match conns st conn with
  | [] => (Ret [], st, [EvRecv conn bufsize (Received [])])
  | Received d :: l =>
      (Ret d, set_conn conn l st, [EvRecv conn bufsize (Received d)])
  | RecvRaises e :: l =>
      (Raise e, set_conn conn l st, [EvRecv conn bufsize (RecvRaises e)])
  end.

(** The [while data != '':] loop, by recursion on the number of reads
    that remain on the connection.  When none remains the peer has
    closed, the read in the body returns the empty string and so will
    every later one: the loop ends if the test sees that, and goes on
    for ever if it does not. *)
Fixpoint receive_loop (py : python) (conn : nat) (reads_left : nat)
    (data : bytes) (frame_count : Z) : M unit :=
  if differs_from_empty_str py data then
    stream_write data ;;
    data' <- recv conn 1024 ;;
    log DEBUG ("Frame " ++ string_of_Z frame_count) ;;
    write_to_wave_file data' ;;
    match reads_left with
    | S n => receive_loop py conn n data' (frame_count + 1)
    | O => if differs_from_empty_str py data' then running else ret tt
    end
  else ret tt.

Definition receive_audio (py : python) (conn : nat) : M unit :=
  log INFO "Receiving audio..." ;;
  open_audio_stream ;;
  data <- recv conn 1024 ;;
  st <- get ;;
  receive_loop py conn (length (conns st conn)) data 1 ;;
  log INFO "Data stopped." ;;
  stream_stop_and_close.

(** The [while True:] loop of [listen_and_process], by recursion on
    what the successive [accept()] calls come back with; [bound] is
    the value of the local variables [conn, addr], if bound. *)
Fixpoint accept_loop (py : python) (incoming : list accept_result)
    (bound : option (nat * address)) : M unit :=
  match incoming with
  | [] => running
  | r :: incoming' =>
      emit (EvAccept r) ;;
      let serve (b : option (nat * address)) :=
        match b with
        | None => raise (UnboundLocalError "addr")
        | Some (conn, addr) =>
            log INFO ("New connection from " ++ str_address addr) ;;
            emit (EvServe conn) ;;
            receive_audio py conn ;;
            emit (EvServed conn) ;;
            accept_loop py incoming' b
        end in
      match r with
      | Accepted conn addr => serve (Some (conn, addr))
      | AcceptRaises socket_timeout => accept_loop py incoming' bound
      | AcceptRaises (socket_error errno) =>
          if errno =? EINTR then ret tt else serve bound
      | AcceptRaises e => raise e
      end
  end.

Definition listen_and_process (py : python) (incoming : list accept_result)
  : M unit :=
  o <- get_self ;;
  match sock o with
  | None => raise (AttributeError "bind")
  | Some _ =>
      emit (EvBind (host o) (port o)) ;;
      emit (EvListen 1) ;;
      log INFO "Waiting for new connection..." ;;
      accept_loop py incoming None
  end.

(** [wave.open(filename, 'wb')] and the three header setters of
    [Wave_write], each with the check the [wave] module makes. *)
Definition open_wave_file (filename : string) : M unit :=
  emit (EvWaveOpen filename) ;;
  o <- get_self ;;
  let w0 := {| wf_filename := filename; nchannels := 0; sampwidth := 0;
               framerate := 0; frames := [] |} in
  put_self (set_wf (Some w0) o) ;;
  (if channels o <? 1 then raise wave_Error else ret tt) ;;
  let w1 := {| wf_filename := filename; nchannels := channels o;
               sampwidth := 0; framerate := 0; frames := [] |} in
  put_self (set_wf (Some w1) o) ;;
  match audio o with
  | None => raise (AttributeError "get_sample_size")
  | Some _ =>
      let sw := get_sample_size (format o) in
      (if (sw <? 1) || (4 <? sw) then raise wave_Error else ret tt) ;;
      let w2 := {| wf_filename := filename; nchannels := channels o;
                   sampwidth := sw; framerate := 0; frames := [] |} in
      put_self (set_wf (Some w2) o) ;;
      (if rate o <=? 0 then raise wave_Error else ret tt) ;;
      put_self (set_wf (Some {| wf_filename := filename;
                                nchannels := channels o; sampwidth := sw;
                                framerate := rate o; frames := [] |}) o)
  end.

Definition close_wave_file : M unit :=
  o <- get_self ;;
  match wf o with
  | Some w => emit (EvWaveClose (wf_filename w))
  | None => ret tt
  end.

End AudioReceiver.

(** *** class AudioSender *)

Module AudioSender.

Definition socket_connect : M unit :=
  o <- get_self ;;
  match sock o with
  | Some _ => emit (EvConnect (host o) (port o))
  | None => raise (AttributeError "connect")
  end.

Definition open_audio_stream : M unit :=
  o <- get_self ;;
  audio_open (format o) true.

Definition send_frame : M unit :=
  o <- get_self ;;
  data <- stream_read (chunk_size o) ;;
  match sock o with
  | Some _ => emit (EvSendall data)
  | None => raise (AttributeError "sendall")
  end.

(** [while True: self.send_frame()], observed for [fuel] rounds. *)
Fixpoint send_frames_continuously (fuel : nat) : M unit :=
  match fuel with
  | O => running
  | S fuel' => send_frame ;; send_frames_continuously fuel'
  end.

(** [for i in range(0, n): body] *)
Fixpoint for_range (n : nat) (body : M unit) : M unit :=
  match n with
  | O => ret tt
  | S n' => body ;; for_range n' body
  end.

Definition send_frames_with_time_limit (py : python) (duration : Z)
  : M unit :=
  o <- get_self ;;
  n <- lift (frames_to_send py (rate o) (chunk_size o) duration) ;;
  for_range (Z.to_nat n) send_frame.

Definition start_sending (py : python) (fuel : nat) : M unit :=
  log INFO "Opening socket connection" ;;
  socket_connect ;;
  log INFO "Opening audio stream" ;;
  open_audio_stream ;;
  log INFO "Begin audio capture" ;;
  o <- get_self ;;
  match duration o with
  | Some d =>
      if negb (d =? 0) then send_frames_with_time_limit py d
      else send_frames_continuously fuel
  | None => send_frames_continuously fuel
  end ;;
  log INFO "Finished audio capture".

Definition stop_sending : M unit :=
  log INFO "Stopping" ;;
  shutdown.

(** Calling [tx.<name>()] with no argument, for the methods above that
    take none; a name that no attribute of the instance bears raises
    [AttributeError]. *)
Definition call_method (py : python) (fuel : nat) (name : string) : M unit :=
  if String.eqb name "socket_connect" then socket_connect
  else if String.eqb name "open_audio_stream" then open_audio_stream
  else if String.eqb name "send_frame" then send_frame
  else if String.eqb name "send_frames_continuously"
       then send_frames_continuously fuel
  else if String.eqb name "start_sending" then start_sending py fuel
  else if String.eqb name "stop_sending" then stop_sending
  else if String.eqb name "shutdown" then shutdown
  else raise (AttributeError name).

End AudioSender.

(** *** The [__main__] block *)

(** The parsed command line, with the parser's defaults. *)
Record Args := {
  arg_rate : Z;
  arg_chunk_size : Z;
  arg_channels : Z;
  arg_device_index : option Z;
  arg_duration : Z;
  arg_host : string;
  arg_port : Z;
  arg_sock_timeout : spec_float
}.

Definition default_args : Args :=
  {| arg_rate := 44100; arg_chunk_size := 1024; arg_channels := 1;
     arg_device_index := None; arg_duration := 0; arg_host := "";
     arg_port := 50007;
     arg_sock_timeout := S754_finite false 4503599627370496 (-52) |}.

Definition SIGINT : Z := 2.
Definition SIGTERM : Z := 15.

Definition on_KeyboardInterrupt (k : M unit) (e : exn) : option (M unit) :=
  match e with
  | KeyboardInterrupt => Some (log WARNING "Received KeyboardInterrupt" ;; k)
  | _ => None
  end.

(** [elif args.tx:] *)
Definition main_tx (py : python) (args : Args) (fuel : nat) : M unit :=
  try_except
    (init (Some (arg_duration args)) (arg_channels args) (arg_rate args)
          (arg_chunk_size args) (arg_host args) (arg_port args)
          (arg_device_index args) (arg_sock_timeout args) ;;
     emit (EvSignal SIGINT) ;;
     emit (EvSignal SIGTERM) ;;
     AudioSender.start_sending py fuel ;;
     AudioSender.call_method py fuel "stop_senddng")
    (on_KeyboardInterrupt AudioSender.stop_sending).


(** *** Reading a trace *)

(** The chunks handed to [sendall], in order. *)
Definition sent_chunks (t : list event) : list bytes :=
  flat_map (fun e => match e with EvSendall d => [d] | _ => [] end) t.

(** The byte strings written to the playback stream, in order. *)
Definition played (t : list event) : list bytes :=
  flat_map (fun e => match e with EvWrite _ d => [d] | _ => [] end) t.

(** How many times each kind of handle was released. *)
Definition is_stream_close (sid : nat) (e : event) : bool :=
  match e with EvStreamClose s => Nat.eqb s sid | _ => false end.

Definition count (p : event -> bool) (t : list event) : nat :=
  length (filter p t).

(** The calls [shutdown] makes on an instance. *)
Definition release_calls (o : BaseAudio) : list event :=
  EvLog INFO "Shutting down" ::
  match stream o with
  | Some s => [EvStopStream (stream_id s); EvStreamClose (stream_id s)]
  | None => []
  end ++
  match audio o with Some _ => [EvTerminate] | None => [] end ++
  match sock o with Some _ => [EvSockClose] | None => [] end.

(** The events of the loop of [receive_audio] that plays [data] and
    then the chunks [more], until the read that follows them returns
    the empty string. *)
Fixpoint loop_trace (sid conn : nat) (data : bytes) (more : list bytes)
    (frame_count : Z) : list event :=
  EvWrite sid data ::
  EvRecv conn 1024 (Received (hd [] more)) ::
  EvLog DEBUG ("Frame " ++ string_of_Z frame_count) ::
  match more with
  | [] => []
  | d :: more' => loop_trace sid conn d more' (frame_count + 1)
  end.

(** The events of [receive_audio] on a connection that delivers
    [chunks] and is then closed, played on the stream [s]. *)
Definition handler_trace (s : Stream) (conn : nat) (chunks : list bytes)
  : list event :=
  EvLog INFO "Receiving audio..." ::
  EvOpen s ::
  EvRecv conn 1024 (Received (hd [] chunks)) ::
  match chunks with
  | [] => []
  | d :: more => loop_trace (stream_id s) conn d more 1
  end ++
  [EvLog INFO "Data stopped."; EvStopStream (stream_id s);
   EvStreamClose (stream_id s)].

(** The playback stream [AudioReceiver.open_audio_stream] opens in
    state [st]. *)
Definition playback_stream (st : state) : Stream :=
  {| stream_id := opened st; s_format := paInt16;
     s_channels := channels (self st); s_rate := rate (self st);
     s_input := false; s_device_index := device_index (self st);
     s_frames_per_buffer := chunk_size (self st) |}.

(** The reads that remain start with an empty one: the peer has
    closed. *)
Definition peer_closed (l : list recv_result) : bool :=
  match l with
  | [] | Received [] :: _ => true
  | _ => false
  end.

(** An initial state: no instance attribute set yet. *)
Definition blank : BaseAudio :=
  {| chunk_size := 0; channels := 0; device_index := None; duration := None;
     rate := 0; host := ""; port := 0; format := paInt16;
     audio := None; sock := None; stream := None; wf := None |}.

Definition boot (reads : nat -> list recv_result) (samples : nat -> byte)
  : state :=
  {| self := blank; conns := reads; mic := samples; mic_pos := 0%nat;
     opened := 0%nat |}.

(** The capture stream [AudioSender.open_audio_stream] opens in state
    [st], and the number of bytes one [send_frame] reads from it. *)
Definition capture_stream (st : state) : Stream :=
  {| stream_id := opened st; s_format := format (self st);
     s_channels := channels (self st); s_rate := rate (self st);
     s_input := true; s_device_index := device_index (self st);
     s_frames_per_buffer := chunk_size (self st) |}.

Definition chunk_bytes (o : BaseAudio) : nat :=
  Z.to_nat (chunk_size o * channels o * get_sample_size (format o)).

(** The events of [n] rounds of [send_frame] on stream [sid], each
    reading [num_frames] frames, [len] bytes, of the device from
    position [pos] on. *)
Fixpoint send_trace (sid : nat) (num_frames : Z) (samples : nat -> byte)
    (pos len n : nat) : list event :=
  match n with
  | O => []
  | S n' =>
      EvRead sid num_frames ::
      EvSendall (map samples (seq pos len)) ::
      send_trace sid num_frames samples (pos + len) len n'
  end.

(** The events of [start_sending] up to its loop. *)
Definition start_trace (st : state) : list event :=
  [EvLog INFO "Opening socket connection";
   EvConnect (host (self st)) (port (self st));
   EvLog INFO "Opening audio stream";
   EvOpen (capture_stream st);
   EvLog INFO "Begin audio capture"].

(** The state of the [--tx] branch once [tx] is built, and its events
    up to the call of [start_sending]. *)
Definition tx_state (args : Args) (st : state) : state :=
  set_self (new_instance (Some (arg_duration args)) (arg_channels args)
              (arg_rate args) (arg_chunk_size args) (arg_host args)
              (arg_port args) (arg_device_index args)) st.

Definition tx_head (args : Args) : list event :=
  [EvPyAudio; EvSocket; EvSettimeout (arg_sock_timeout args);
   EvSignal SIGINT; EvSignal SIGTERM].

(** Stopping or closing a stream, terminating PyAudio, closing the
    socket. *)
Definition is_release (e : event) : bool :=
  match e with
  | EvStopStream _ | EvStreamClose _ | EvTerminate | EvSockClose => true
  | _ => false
  end.

(** The chunk count as the specification words it:
    [round(rate/chunk_size * D)] (ties upward) and
    [ceil(rate/chunk_size * D)], on the exact quotient. *)
Definition spec_round (rate chunk_size D : Z) : Z :=
  (2 * (rate * D) + chunk_size) / (2 * chunk_size).

Definition spec_ceil (rate chunk_size D : Z) : Z :=
  - ((- (rate * D)) / chunk_size).

(** Events other than an [accept] and the entry and return of the
    handler. *)
Definition quiet (e : event) : bool :=
  match e with
  | EvAccept _ | EvServe _ | EvServed _ => false
  | _ => true
  end.

(** The number of connections being handled after the events [t],
    when [n] were before them. *)
Fixpoint in_service_from (n : nat) (t : list event) : nat :=
  match t with
  | [] => n
  | EvServe _ :: t' => in_service_from (S n) t'
  | EvServed _ :: t' => in_service_from (pred n) t'
  | _ :: t' => in_service_from n t'
  end.

Definition in_service (t : list event) : nat := in_service_from 0 t.

(** The receiver's protocol, as an automaton on traces with the state
    "a connection is being handled": [accept] is called and the handler
    is entered only when none is, and the handler returns only when one
    is.  [Some b] is the state after an admissible trace. *)
Fixpoint sequential (busy : bool) (t : list event) : option bool :=
  match t with
  | [] => Some busy
  | EvAccept _ :: t' => if busy then None else sequential false t'
  | EvServe _ :: t' => if busy then None else sequential true t'
  | EvServed _ :: t' => if busy then sequential false t' else None
  | _ :: t' => sequential busy t'
  end.

(** What a run returned, the state it ended in, and its events. *)
Definition result {A} (r : outcome A * state * list event) : outcome A :=
  fst (fst r).
Definition final {A} (r : outcome A * state * list event) : state :=
  snd (fst r).
Definition events {A} (r : outcome A * state * list event) : list event :=
  snd r.

(** Every event of every run of [m] satisfies [P]. *)
Definition emits {A} (P : event -> Prop) (m : M A) : Prop :=
  forall st, Forall P (events (m st)).

(** [m] neither calls [accept] nor enters or leaves the handler. *)
Definition quietly {A} (m : M A) : Prop := emits (fun e => quiet e = true) m.

(** No run of [m] returns. *)
Definition never_returns {A} (m : M A) : Prop :=
  forall st a, result (m st) <> Ret a.

(** *** Sample runs *)

(** Connection 0 delivers [b"ab"] and [b"c"] and is then closed; any
    other is closed from the start. *)
Definition two_chunks (conn : nat) : list recv_result :=
  match conn with
  | O => [Received [x61; x62]; Received [x63]]
  | _ => []
  end.

Definition silence (i : nat) : byte := x00.

(** A sender as the [--tx] branch builds it from [args]. *)
Definition a_sender (args : Args) : state :=
  final (init (Some (arg_duration args)) (arg_channels args) (arg_rate args)
              (arg_chunk_size args) (arg_host args) (arg_port args)
              (arg_device_index args) (arg_sock_timeout args)
              (boot two_chunks silence)).

(** The default arguments with [--duration d]. *)
Definition with_duration (d : Z) : Args :=
  {| arg_rate := arg_rate default_args;
     arg_chunk_size := arg_chunk_size default_args;
     arg_channels := arg_channels default_args;
     arg_device_index := arg_device_index default_args;
     arg_duration := d;
     arg_host := arg_host default_args;
     arg_port := arg_port default_args;
     arg_sock_timeout := arg_sock_timeout default_args |}.

(** [errno.ECONNABORTED] (Linux) *)
Definition ECONNABORTED : Z := 103.

(** One caller, connection 0; then an [accept] that fails because a
    client gave up while queued; then an [accept] that times out. *)
Definition caller_then_abort : list accept_result :=
  [Accepted 0 ("192.0.2.1"%string, 40000);
   AcceptRaises (socket_error ECONNABORTED);
   AcceptRaises socket_timeout].


(** Two callers, connections 0 and 1, one after the other. *)
Definition two_callers : list accept_result :=
  [Accepted 0 ("192.0.2.1"%string, 40000);
   Accepted 1 ("192.0.2.2"%string, 40001)].

(** A receiver as the [--rx] branch builds it from the default
    arguments. *)
Definition a_receiver : state :=
  final (init None (arg_channels default_args) (arg_rate default_args)
              (arg_chunk_size default_args) (arg_host default_args)
              (arg_port default_args) (arg_device_index default_args)
              (arg_sock_timeout default_args) (boot two_chunks silence)).

(** *** More of the module: [list_devices], and what the further
    properties are stated with *)

(** A device-information dictionary as PyAudio returns it: the keys
    [list_devices] reads, each present or not; the sample rate is a
    float, the other numbers are ints. *)
Record devinfo := {
  d_index : option Z;
  d_name : option string;
  d_defaultSampleRate : option spec_float;
  d_maxInputChannels : option Z;
  d_maxOutputChannels : option Z
}.

(** The [def_string] of the loop body. *)
Definition def_string (default_devinfo d : devinfo) : string :=
  match d_index d, d_index default_devinfo with
  | Some i, Some j => if i =? j then " (DEFAULT)" else ""
  | _, _ => ""
  end.

(** ["%d" % x] for the sample rate: an absent key gives the int [0]; a
    float is converted as [int(x)] is. *)
Definition percent_d_rate (r : option spec_float) : exn + string :=
  match r with
  | None => inr (string_of_Z 0)
  | Some x => match int_of_float x with
              | inl e => inl e
              | inr n => inr (string_of_Z n)
              end
  end.

Definition get_or {A} (o : option A) (default : A) : A :=
  match o with Some a => a | None => default end.

(** The second loop of [list_devices], from position [i] on: the lines
    printed, and the exception that cut the listing short, if any. *)
Fixpoint print_devices (default_devinfo : devinfo) (i : Z)
    (devinfos : list devinfo) : list string * option exn :=
  match devinfos with
  | [] => ([], None)
  | d :: rest =>
      let line1 := (string_of_Z i ++ ": " ++ get_or (d_name d) "?"
                    ++ def_string default_devinfo d)%string in
      match percent_d_rate (d_defaultSampleRate d) with
      | inl e => ([line1], Some e)
      | inr r =>
          let line2 := ("    Default sample rate: " ++ r)%string in
          let line3 := ("    Max input/output channels: "
                        ++ string_of_Z (get_or (d_maxInputChannels d) 0)
                        ++ "/"
                        ++ string_of_Z (get_or (d_maxOutputChannels d) 0))
                       %string in
          let '(lines, e) := print_devices default_devinfo (i + 1) rest in
          (line1 :: line2 :: line3 :: lines, e)
      end
  end.

(** [list_devices], on the default output device and the devices
    PyAudio reports. *)
Definition list_devices (default_devinfo : devinfo)
    (devinfos : list devinfo) : list string * option exn :=
  print_devices default_devinfo 0 devinfos.

(** The devices of a listing that get the [(DEFAULT)] mark. *)
Definition marked (default_devinfo : devinfo) (devinfos : list devinfo)
  : list devinfo :=
  filter (fun d => negb (String.eqb (def_string default_devinfo d) ""))
         devinfos.

(** The [index] entries of the devices that have one. *)
Definition indices (devinfos : list devinfo) : list Z :=
  flat_map (fun d => match d_index d with Some i => [i] | None => [] end)
           devinfos.

(** The sample rate of [d] can be printed with [%d]. *)
Definition printable_rate (d : devinfo) : bool :=
  match d_defaultSampleRate d with
  | Some (S754_infinity _) | Some S754_nan => false
  | _ => true
  end.

(** The float [x] is not a number or has sign bit [s]. *)
Definition has_sign (s : bool) (x : spec_float) : Prop :=
  match x with
  | S754_zero s' | S754_infinity s' | S754_finite s' _ _ => s' = s
  | S754_nan => True
  end.

(** An input device and an output device, the second being the
    default one; and a device whose rate cannot be printed. *)
Definition dev_in : devinfo :=
  {| d_index := Some 0; d_name := Some "in"%string;
     d_defaultSampleRate := Some (binary_normalize prec emax 44100 0 false);
     d_maxInputChannels := Some 1; d_maxOutputChannels := Some 0 |}.

Definition dev_out : devinfo :=
  {| d_index := Some 1; d_name := Some "out"%string;
     d_defaultSampleRate := Some (binary_normalize prec emax 48000 0 false);
     d_maxInputChannels := Some 0; d_maxOutputChannels := Some 2 |}.

Definition dev_bad : devinfo :=
  {| d_index := Some 2; d_name := None;
     d_defaultSampleRate := Some (S754_infinity false);
     d_maxInputChannels := None; d_maxOutputChannels := None |}.

(** No run of [m] changes what the reads on a connection other than
    [conn] will return. *)
Definition keeps_other_conns (conn : nat) {A} (m : M A) : Prop :=
  forall st c, c <> conn -> conns (final (m st)) c = conns st c.

(** The [accept] results for callers that all get through. *)
Definition all_accepted (callers : list (nat * address))
  : list accept_result :=
  map (fun ca => Accepted (fst ca) (snd ca)) callers.


(** The events of [listen_and_process] up to its loop. *)
Definition listen_trace (st : state) : list event :=
  [EvBind (host (self st)) (port (self st)); EvListen 1;
   EvLog INFO "Waiting for new connection..."].

(** [n] accepts in a row that time out. *)
Definition timeouts (n : nat) : list accept_result :=
  repeat (AcceptRaises socket_timeout) n.

(** The next read on the connection returns (data or the empty
    string) rather than raises. *)
Definition next_read_returns (l : list recv_result) : bool :=
  match l with
  | RecvRaises _ :: _ => false
  | _ => true
  end.

(** The wave file [open_wave_file] leaves in [self.wf] when every
    setter has accepted its argument. *)
Definition wave_header (filename : string) (o : BaseAudio) : Wave_write :=
  {| wf_filename := filename; nchannels := channels o;
     sampwidth := get_sample_size (format o); framerate := rate o;
     frames := [] |}.

End Trx.

(** * Properties *)

(** ** [strip] *)

Section Strip.
Import PyBytes.

Lemma lstrip_split (s : bytes) :
  exists l, s = l ++ lstrip s /\ forallb is_space l = true.
Proof.
  induction s as [|b s [l [E L]]]; simpl.
  - exists []; auto.
  - destruct (is_space b) eqn:B.
    + exists (b :: l); simpl. rewrite B, L. split; [f_equal; exact E | reflexivity].
    + exists []; auto.
Qed.

Lemma lstrip_head (s : bytes) (d : byte) :
  lstrip s <> [] -> is_space (hd d (lstrip s)) = false.
Proof.
  induction s as [|b s IH]; simpl; [congruence|].
  destruct (is_space b) eqn:B; [exact IH | intros _; exact B].
Qed.

Lemma lstrip_fixed (s : bytes) (d : byte) :
  is_space (hd d s) = false -> s <> [] -> lstrip s = s.
Proof. destruct s as [|b s]; simpl; [congruence|]. now intros ->. Qed.

Lemma rstrip_split (s : bytes) :
  exists r, s = rstrip s ++ r /\ forallb is_space r = true.
Proof.
  unfold rstrip. destruct (lstrip_split (rev s)) as [l [E L]].
  exists (rev l). split.
  - rewrite <- rev_app_distr, <- E. symmetry; apply rev_involutive.
  - rewrite forallb_forall in *. intros x Hx. apply L, in_rev, Hx.
Qed.

Lemma last_rev_hd (s : bytes) (d : byte) : last s d = hd d (rev s).
Proof.
  induction s as [|b s IH] using rev_ind; [reflexivity|].
  now rewrite last_last, rev_app_distr.
Qed.

Lemma rstrip_last (s : bytes) (d : byte) :
  rstrip s <> [] -> is_space (last (rstrip s) d) = false.
Proof.
  unfold rstrip. intros H. rewrite last_rev_hd, rev_involutive.
  apply lstrip_head. intros E. apply H. now rewrite E.
Qed.

Lemma rstrip_fixed (s : bytes) (d : byte) :
  is_space (last s d) = false -> s <> [] -> rstrip s = s.
Proof.
  unfold rstrip. intros H N. rewrite (lstrip_fixed (rev s) d).
  - apply rev_involutive.
  - now rewrite <- last_rev_hd.
  - intros E. apply N. now rewrite <- (rev_involutive s), E.
Qed.

Lemma clean_edges_spec (s : bytes) (d : byte) :
  clean_edges s = true <->
  (s = [] \/ (is_space (hd d s) = false /\ is_space (last s d) = false)).
Proof.
  destruct s as [|b s]; simpl.
  - intuition.
  - rewrite andb_true_iff, !negb_true_iff.
    assert (L : forall d', last (b :: s) d' = last (b :: s) d).
    { intros d'. revert b. induction s as [|c s IH]; intros b; [reflexivity|].
      change (last (c :: s) d' = last (c :: s) d). apply IH. }
    change (match s with [] => b | _ :: _ => last s b end) with (last (b :: s) b).
    rewrite (L b). split; [intros [? ?]; right; auto | intros [?|[? ?]]; [discriminate | auto]].
Qed.

(** [strip] removes a run of whitespace at each end, and nothing else. *)
Lemma strip_spec (s : bytes) :
  exists l r, s = l ++ strip s ++ r /\ forallb is_space l = true /\
              forallb is_space r = true /\ clean_edges (strip s) = true.
Proof.
  unfold strip.
  destruct (lstrip_split s) as [l [El Hl]].
  destruct (rstrip_split (lstrip s)) as [r [Er Hr]].
  exists l, r. repeat split; auto.
  - now rewrite <- Er.
  - apply (clean_edges_spec _ x00).
    destruct (rstrip (lstrip s)) as [|b m] eqn:E; [now left | right].
    split.
    + assert (H : hd x00 (lstrip s) = b) by now rewrite Er.
      simpl. rewrite <- H. apply lstrip_head.
      rewrite Er. discriminate.
    + rewrite <- E. apply rstrip_last. rewrite E. discriminate.
Qed.

Lemma strip_fixed (s : bytes) : clean_edges s = true -> strip s = s.
Proof.
  intros H. apply (clean_edges_spec _ x00) in H. unfold strip.
  destruct H as [->|[H1 H2]]; [reflexivity|].
  destruct s as [|b s]; [reflexivity|].
  rewrite (lstrip_fixed (b :: s) x00) by (auto; discriminate).
  apply (rstrip_fixed _ x00); [auto | discriminate].
Qed.

End Strip.

(** ** The echo server *)

Section Echo.
Import PyBytes EchoServer.

Lemma recv_all (sent : bytes) :
  (length sent <= 1024)%nat -> recv sent 1024 = sent.
Proof. intros H. unfold recv. apply firstn_all2. simpl. lia. Qed.

(** C2, as stated, fails: the three bytes [b"hi\n"] come back as
    [b"hi"]. *)
Lemma echo_drops_trailing_newline :
  (length hi_newline <= 1024)%nat /\
  returned (serve hi_newline ("192.0.2.1"%string, 40000)) <> hi_newline.
Proof. split; [simpl; lia | vm_compute; discriminate]. Qed.

(** C2, amended: for every input of at most 1024 bytes the handler
    prints the sender's address, then the data, then sends back the
    input with the whitespace at its two ends removed and nothing else
    changed; an input that neither starts nor ends with whitespace
    comes back as it was sent. *)
Theorem echo_returns_stripped_input (sent : bytes) (addr : string * Z) :
  (length sent <= 1024)%nat ->
  serve sent addr =
    [EvRecv 1024; EvPrint (fst addr ++ " wrote:")%string;
     EvPrintData (strip sent); EvSendall (strip sent)] /\
  returned (serve sent addr) = strip sent /\
  (exists l r, sent = l ++ returned (serve sent addr) ++ r /\
               forallb is_space l = true /\ forallb is_space r = true /\
               clean_edges (returned (serve sent addr)) = true) /\
  (clean_edges sent = true -> returned (serve sent addr) = sent).
Proof.
  intros H.
  assert (T : serve sent addr =
    [EvRecv 1024; EvPrint (fst addr ++ " wrote:")%string;
     EvPrintData (strip sent); EvSendall (strip sent)]).
  { unfold serve, handle; simpl. now rewrite (recv_all sent H). }
  assert (R : returned (serve sent addr) = strip sent).
  { rewrite T. unfold returned; simpl. now rewrite app_nil_r. }
  rewrite R. repeat split; auto.
  - apply strip_spec.
  - apply strip_fixed.
Qed.

Lemma echo_returns_stripped_input_witness :
  (length hi_newline <= 1024)%nat /\
  returned (serve hi_newline ("192.0.2.1"%string, 40000)) = strip hi_newline.
Proof.
  split; [simpl; lia|].
  apply (echo_returns_stripped_input hi_newline ("192.0.2.1"%string, 40000)).
  simpl; lia.
Defined.

End Echo.

(** ** The relay: running the primitives *)

Section Primitives.
Import Trx.
Local Open Scope py_scope.

Lemma prepend_nil {A} (r : outcome A * state * list event) : prepend [] r = r.
Proof. now destruct r as [[o st] t]. Qed.

Lemma prepend_prepend {A} t1 t2 (r : outcome A * state * list event) :
  prepend t1 (prepend t2 r) = prepend (t1 ++ t2) r.
Proof. destruct r as [[o st] t]. simpl. now rewrite app_assoc. Qed.

Lemma prepend_result {A} t1 (o : outcome A) st t :
  prepend t1 (o, st, t) = (o, st, t1 ++ t).
Proof. reflexivity. Qed.

Lemma bind_Ret {A B} (m : M A) (k : A -> M B) st a st1 t1 :
  m st = (Ret a, st1, t1) -> bind m k st = prepend t1 (k a st1).
Proof. unfold bind. now intros ->. Qed.

Lemma bind_Raise {A B} (m : M A) (k : A -> M B) st e st1 t1 :
  m st = (Raise e, st1, t1) -> bind m k st = (Raise e, st1, t1).
Proof. unfold bind. now intros ->. Qed.

Lemma bind_Running {A B} (m : M A) (k : A -> M B) st st1 t1 :
  m st = (Running, st1, t1) -> bind m k st = (Running, st1, t1).
Proof. unfold bind. now intros ->. Qed.

Lemma bind_bind {A B C} (m : M A) (k : A -> M B) (h : B -> M C) st :
  bind (bind m k) h st = bind m (fun a => bind (k a) h) st.
Proof.
  unfold bind. destruct (m st) as [[[a|e|] st1] t1]; auto.
  destruct (k a st1) as [[[b|e|] st2] t2]; simpl; auto.
  destruct (h b st2) as [[o st3] t3]; simpl. now rewrite app_assoc.
Qed.

Lemma bind_ret {A B} (a : A) (k : A -> M B) st : bind (ret a) k st = k a st.
Proof. unfold bind, ret. apply prepend_nil. Qed.

Lemma bind_raise {A B} e (k : A -> M B) st :
  bind (raise e) k st = (Raise e, st, []).
Proof. reflexivity. Qed.

Lemma bind_running {A B} (k : A -> M B) st :
  bind running k st = (Running, st, []).
Proof. reflexivity. Qed.

Lemma bind_emit {B} e (k : unit -> M B) st :
  bind (emit e) k st = prepend [e] (k tt st).
Proof. reflexivity. Qed.

Lemma bind_log {B} l msg (k : unit -> M B) st :
  bind (log l msg) k st = prepend [EvLog l msg] (k tt st).
Proof. reflexivity. Qed.

Lemma bind_get {B} (k : state -> M B) st : bind get k st = k st st.
Proof. unfold bind, get. apply prepend_nil. Qed.

Lemma bind_put {B} st' (k : unit -> M B) st : bind (put st') k st = k tt st'.
Proof. unfold bind, put. apply prepend_nil. Qed.

Lemma bind_get_self {B} (k : BaseAudio -> M B) st :
  bind get_self k st = k (self st) st.
Proof. unfold bind, get_self. apply prepend_nil. Qed.

Lemma bind_put_self {B} o (k : unit -> M B) st :
  bind (put_self o) k st = k tt (set_self o st).
Proof. unfold bind, put_self. apply prepend_nil. Qed.

Lemma stream_write_ok st s data :
  stream (self st) = Some s ->
  stream_write data st = (Ret tt, st, [EvWrite (stream_id s) data]).
Proof. unfold stream_write. rewrite bind_get_self. now intros ->. Qed.

Lemma stream_stop_and_close_ok st s :
  stream (self st) = Some s ->
  stream_stop_and_close st =
    (Ret tt, st, [EvStopStream (stream_id s); EvStreamClose (stream_id s)]).
Proof. unfold stream_stop_and_close. rewrite bind_get_self. now intros ->. Qed.

Lemma write_to_wave_file_off st data :
  wf (self st) = None ->
  AudioReceiver.write_to_wave_file data st = (Ret tt, st, []).
Proof.
  unfold AudioReceiver.write_to_wave_file. rewrite bind_get_self. now intros ->.
Qed.

Lemma recv_data st conn n d l :
  conns st conn = Received d :: l ->
  AudioReceiver.recv conn n st =
    (Ret d, set_conn conn l st, [EvRecv conn n (Received d)]).
Proof. unfold AudioReceiver.recv. now intros ->. Qed.

Lemma recv_closed st conn n :
  conns st conn = [] ->
  AudioReceiver.recv conn n st = (Ret [], st, [EvRecv conn n (Received [])]).
Proof. unfold AudioReceiver.recv. now intros ->. Qed.

Lemma conns_set_conn st conn l : conns (set_conn conn l st) conn = l.
Proof. simpl. now rewrite Nat.eqb_refl. Qed.

End Primitives.

(** Run the unconditional steps at the head of a computation. *)
Ltac run :=
  repeat (first [ rewrite bind_bind | rewrite bind_emit | rewrite bind_log
                | rewrite bind_ret | rewrite bind_get_self
                | rewrite bind_put_self | rewrite bind_get
                | rewrite bind_put ]; cbv beta).

(** ** The connection handler *)

Section Handler.
Import Trx AudioReceiver.
Local Open Scope py_scope.

Variable conn : nat.
Variable s : Stream.

Lemma receive_loop_stops n frame st :
  receive_loop Python2 conn n [] frame st = (Ret tt, st, []).
Proof. destruct n; reflexivity. Qed.

Lemma receive_loop_step n b data frame st data' st' :
  stream (self st) = Some s ->
  wf (self st') = None ->
  recv conn 1024 st = (Ret data', st', [EvRecv conn 1024 (Received data')]) ->
  receive_loop Python2 conn n (b :: data) frame st =
    prepend [EvWrite (stream_id s) (b :: data);
             EvRecv conn 1024 (Received data');
             EvLog DEBUG ("Frame " ++ string_of_Z frame)]
      match n with
      | S n' => receive_loop Python2 conn n' data' (frame + 1) st'
      | O => (if differs_from_empty_str Python2 data' then running
              else ret tt) st'
      end.
Proof.
  intros Hs Hw Hr.
  destruct n; cbn [receive_loop differs_from_empty_str];
    rewrite (bind_Ret _ _ _ _ _ _ (stream_write_ok _ _ _ Hs));
    rewrite (bind_Ret _ _ _ _ _ _ Hr), bind_log;
    rewrite (bind_Ret _ _ _ _ _ _ (write_to_wave_file_off _ _ Hw));
    rewrite !prepend_prepend; cbn [app]; reflexivity.
Qed.

Lemma receive_loop_plays (more : list bytes) :
  forall (rest : list recv_result) (b : byte) (data : bytes) (frame : Z)
         (st : state),
  stream (self st) = Some s ->
  wf (self st) = None ->
  conns st conn = map Received more ++ rest ->
  peer_closed rest = true ->
  Forall (fun d => d <> []) more ->
  exists st',
    receive_loop Python2 conn (length (conns st conn)) (b :: data) frame st =
      (Ret tt, st', loop_trace (stream_id s) conn (b :: data) more frame) /\
    self st' = self st /\ opened st' = opened st.
Proof.
  induction more as [|d more IH]; intros rest b data frame st Hs Hw Hc Hr Hm.
  - simpl in Hc. destruct rest as [|[[|c r]|e] rest]; try discriminate.
    + rewrite Hc. exists st.
      rewrite (receive_loop_step _ _ _ _ _ [] st Hs Hw (recv_closed _ _ _ Hc)).
      auto.
    + rewrite Hc. exists (set_conn conn rest st).
      rewrite (receive_loop_step _ _ _ _ _ [] (set_conn conn rest st) Hs Hw
                 (recv_data _ _ _ _ _ Hc)).
      cbn [length]. rewrite receive_loop_stops. auto.
  - inversion Hm as [|? ? Hd Hm']; subst.
    destruct d as [|b' d]; [congruence|].
    set (st1 := set_conn conn (map Received more ++ rest) st).
    destruct (IH rest b' d (frame + 1) st1) as [st' [E [S1 S2]]]; auto.
    { apply conns_set_conn. }
    unfold st1 in E. rewrite conns_set_conn in E.
    exists st'. rewrite Hc. cbn [map app length].
    rewrite (receive_loop_step _ _ _ _ _ (b' :: d) st1 Hs Hw
               (recv_data _ _ _ _ _ Hc)).
    unfold st1. rewrite E. auto.
Qed.

Lemma played_loop_trace sid (more : list bytes) :
  forall data frame,
  played (loop_trace sid conn data more frame) = data :: more.
Proof.
  induction more as [|d more IH]; intros data frame; [reflexivity|].
  cbn [loop_trace played flat_map app]. f_equal. apply IH.
Qed.

Lemma played_handler_trace (chunks : list bytes) :
  played (handler_trace s conn chunks) = chunks.
Proof.
  unfold handler_trace, played. cbn [flat_map app].
  rewrite flat_map_app. cbn [flat_map app]. rewrite app_nil_r.
  destruct chunks as [|d more]; [reflexivity | apply played_loop_trace].
Qed.

End Handler.

Section Receiver.
Import Trx AudioReceiver.
Local Open Scope py_scope.

Lemma open_audio_stream_ok st :
  audio (self st) <> None ->
  open_audio_stream st =
    (Ret tt, with_stream (playback_stream st) st,
     [EvOpen (playback_stream st)]).
Proof.
  intros H. unfold open_audio_stream. rewrite bind_get_self.
  destruct (audio (self st)) eqn:E; [|congruence].
  cbn [width get_format_from_width lift]. rewrite bind_ret.
  unfold audio_open. now rewrite E.
Qed.


Lemma accept_loop_accepted py conn addr incoming bound st st' t :
  receive_audio py conn st = (Ret tt, st', t) ->
  accept_loop py (Accepted conn addr :: incoming) bound st =
    prepend (EvAccept (Accepted conn addr) ::
             EvLog INFO ("New connection from " ++ str_address addr) ::
             EvServe conn :: t ++ [EvServed conn])
      (accept_loop py incoming (Some (conn, addr)) st').
Proof.
  intros H. cbn [accept_loop].
  rewrite bind_emit, bind_log, bind_emit, (bind_Ret _ _ _ _ _ _ H), bind_emit.
  rewrite !prepend_prepend. cbn [app]. reflexivity.
Qed.



End Receiver.

(** ** What a run can emit *)

Section Emits.
Import Trx.
Local Open Scope py_scope.

Variable P : event -> Prop.

Lemma emits_ret {A} (a : A) : emits P (ret a).
Proof. intros st. constructor. Qed.

Lemma emits_raise {A} e : emits P (@raise A e).
Proof. intros st. constructor. Qed.

Lemma emits_running {A} : emits P (@running A).
Proof. intros st. constructor. Qed.

Lemma emits_get : emits P get.
Proof. intros st. constructor. Qed.

Lemma emits_put st' : emits P (put st').
Proof. intros st. constructor. Qed.

Lemma emits_get_self : emits P get_self.
Proof. intros st. constructor. Qed.

Lemma emits_put_self o : emits P (put_self o).
Proof. intros st. constructor. Qed.

Lemma emits_lift {A} (r : exn + A) : emits P (lift r).
Proof. destruct r; intros st; constructor. Qed.

Lemma emits_emit e : P e -> emits P (emit e).
Proof. intros H st. repeat constructor. exact H. Qed.

Lemma emits_bind {A B} (m : M A) (k : A -> M B) :
  emits P m -> (forall a, emits P (k a)) -> emits P (bind m k).
Proof.
  intros Hm Hk st. specialize (Hm st). unfold bind, events in *.
  destruct (m st) as [[[a|e|] st1] t1]; simpl in *; auto.
  specialize (Hk a st1). destruct (k a st1) as [[o st2] t2]; simpl in *.
  apply Forall_app. now split.
Qed.

Lemma emits_if {A} (b : bool) (m1 m2 : M A) :
  emits P m1 -> emits P m2 -> emits P (if b then m1 else m2).
Proof. now destruct b. Qed.

End Emits.

Section Quiet.
Import Trx AudioReceiver.
Local Open Scope py_scope.

Lemma quietly_log l msg : quietly (log l msg).
Proof. now apply emits_emit. Qed.

Lemma quietly_audio_open fmt input : quietly (audio_open fmt input).
Proof.
  intros st. unfold audio_open, events.
  destruct (audio (self st)); simpl; repeat constructor.
Qed.

Lemma quietly_open_audio_stream : quietly open_audio_stream.
Proof.
  unfold open_audio_stream. apply emits_bind; [apply emits_get_self|].
  intros o. destruct (audio o); [|apply emits_raise].
  apply emits_bind; [apply emits_lift | intros; apply quietly_audio_open].
Qed.

Lemma quietly_recv conn n : quietly (recv conn n).
Proof.
  intros st. unfold recv, events.
  destruct (conns st conn) as [|[d|e] l]; simpl; repeat constructor.
Qed.

Lemma quietly_stream_write data : quietly (stream_write data).
Proof.
  unfold stream_write. apply emits_bind; [apply emits_get_self|].
  intros o. destruct (stream o); [now apply emits_emit | apply emits_raise].
Qed.

Lemma quietly_stream_stop_and_close : quietly stream_stop_and_close.
Proof.
  unfold stream_stop_and_close. apply emits_bind; [apply emits_get_self|].
  intros o. destruct (stream o); [|apply emits_raise].
  apply emits_bind; intros; now apply emits_emit.
Qed.

Lemma quietly_write_to_wave_file data : quietly (write_to_wave_file data).
Proof.
  unfold write_to_wave_file. apply emits_bind; [apply emits_get_self|].
  intros o. destruct (wf o); [|apply emits_ret].
  apply emits_bind; [|intros; apply emits_raise].
  unfold global_name. apply emits_if; [apply emits_ret | apply emits_raise].
Qed.

Lemma quietly_receive_loop py conn n :
  forall data frame, quietly (receive_loop py conn n data frame).
Proof.
  induction n as [|n IH]; intros data frame; cbn [receive_loop];
    (apply emits_if; [|apply emits_ret]);
    (apply emits_bind; [apply quietly_stream_write | intros _]);
    (apply emits_bind; [apply quietly_recv | intros data']);
    (apply emits_bind; [apply quietly_log | intros _]);
    (apply emits_bind; [apply quietly_write_to_wave_file | intros _]).
  - apply emits_if; [apply emits_running | apply emits_ret].
  - apply IH.
Qed.

Lemma quietly_receive_audio py conn : quietly (receive_audio py conn).
Proof.
  unfold receive_audio.
  apply emits_bind; [apply quietly_log | intros _].
  apply emits_bind; [apply quietly_open_audio_stream | intros _].
  apply emits_bind; [apply quietly_recv | intros data].
  apply emits_bind; [apply emits_get | intros st].
  apply emits_bind; [apply quietly_receive_loop | intros _].
  apply emits_bind; [apply quietly_log | intros _].
  apply quietly_stream_stop_and_close.
Qed.

End Quiet.

(** ** One connection at a time *)

Section Sequential.
Import Trx AudioReceiver.
Local Open Scope py_scope.

Lemma events_prepend {A} t (r : outcome A * state * list event) :
  events (prepend t r) = t ++ events r.
Proof. now destruct r as [[o st] t']. Qed.

Lemma sequential_app (t1 t2 : list event) :
  forall b, sequential b (t1 ++ t2) =
            match sequential b t1 with
            | Some b' => sequential b' t2
            | None => None
            end.
Proof.
  induction t1 as [|e t1 IH]; intros b; [reflexivity|].
  destruct e, b; cbn [app sequential]; auto.
Qed.

Lemma sequential_quiet (t : list event) :
  Forall (fun e => quiet e = true) t -> forall b, sequential b t = Some b.
Proof.
  induction 1 as [|e t He _ IH]; intros b; [reflexivity|].
  destruct e; try discriminate He; cbn [sequential]; apply IH.
Qed.

(** What the loop does once [conn, addr] are (or are not) bound. *)
Lemma serve_sequential py (incoming : list accept_result)
    (b : option (nat * address)) st :
  (forall bound st',
      sequential false (events (accept_loop py incoming bound st')) <> None) ->
  sequential false
    (events
       (match b with
        | None => raise (UnboundLocalError "addr")
        | Some (conn, addr) =>
            log INFO ("New connection from " ++ str_address addr) ;;
            emit (EvServe conn) ;;
            receive_audio py conn ;;
            emit (EvServed conn) ;;
            accept_loop py incoming b
        end st)) <> None.
Proof.
  intros IH. destruct b as [[conn addr]|]; [|discriminate].
  rewrite bind_log, bind_emit, !events_prepend. cbn [app sequential].
  pose proof (quietly_receive_audio py conn st) as Q. unfold events in Q.
  destruct (receive_audio py conn st) as [[[[]|e|] st1] t] eqn:E; simpl in Q.
  - rewrite (bind_Ret _ _ _ _ _ _ E), bind_emit, !events_prepend.
    rewrite sequential_app, (sequential_quiet _ Q). cbn [app sequential].
    apply IH.
  - rewrite (bind_Raise _ _ _ _ _ _ E). cbn [events snd].
    rewrite (sequential_quiet _ Q). discriminate.
  - rewrite (bind_Running _ _ _ _ _ E). cbn [events snd].
    rewrite (sequential_quiet _ Q). discriminate.
Qed.

Lemma accept_loop_sequential py (incoming : list accept_result) :
  forall bound st,
  sequential false (events (accept_loop py incoming bound st)) <> None.
Proof.
  induction incoming as [|r incoming IH]; intros bound st; [discriminate|].
  cbn [accept_loop]. rewrite bind_emit, events_prepend. cbn [app sequential].
  destruct r as [conn addr|e].
  - exact (serve_sequential py incoming (Some (conn, addr)) st IH).
  - destruct e; try discriminate.
    + apply IH.
    + destruct (errno =? EINTR); [discriminate|].
      exact (serve_sequential py incoming bound st IH).
Qed.

Lemma listen_and_process_sequential py incoming st :
  sequential false (events (listen_and_process py incoming st)) <> None.
Proof.
  unfold listen_and_process. rewrite bind_get_self.
  destruct (sock (self st)); [|discriminate].
  rewrite !bind_emit, bind_log, !events_prepend. cbn [app sequential].
  apply accept_loop_sequential.
Qed.

(** An admissible trace, cut anywhere: what comes before the cut has
    left at most one connection in service, exactly as the automaton
    says, and what comes after is admissible from there. *)
Lemma sequential_cut (p q : list event) :
  forall b, sequential b (p ++ q) <> None ->
  exists b1, in_service_from (Nat.b2n b) p = Nat.b2n b1 /\
             sequential b1 q <> None.
Proof.
  induction p as [|e p IH]; intros b H.
  - exists b. now split.
  - destruct e, b; cbn [app sequential in_service_from] in *;
      first [ congruence | apply (IH true); exact H
            | apply (IH false); exact H ].
Qed.

End Sequential.

Section OneAtATime.
Import Trx AudioReceiver.

(** C9: cut the events of the receive loop anywhere: at most one
    connection is in service at the cut, and none is when the next
    event is an [accept] or the entry of the handler. *)
Theorem receiver_serves_one_connection_at_a_time
    (py : python) (incoming : list accept_result) (st : state)
    (before after : list event) :
  events (listen_and_process py incoming st) = before ++ after ->
  (in_service before <= 1)%nat /\
  (forall r after', after = EvAccept r :: after' ->
                    in_service before = 0%nat) /\
  (forall conn after', after = EvServe conn :: after' ->
                       in_service before = 0%nat).
Proof.
  intros E. pose proof (listen_and_process_sequential py incoming st) as H.
  rewrite E in H. destruct (sequential_cut before after false H) as [b [I S]].
  unfold in_service. change (Nat.b2n false) with 0%nat in I. rewrite I.
  split; [destruct b; simpl; lia | split].
  - intros r after' ->. destruct b; [now elim S | reflexivity].
  - intros conn after' ->. destruct b; [now elim S | reflexivity].
Qed.

Lemma receiver_serves_one_connection_at_a_time_witness :
  (in_service
     (firstn 12 (events (listen_and_process Python2 two_callers a_receiver)))
   <= 1)%nat.
Proof.
  apply (receiver_serves_one_connection_at_a_time Python2 two_callers
           a_receiver
           (firstn 12 (events (listen_and_process Python2 two_callers
                                 a_receiver)))
           (skipn 12 (events (listen_and_process Python2 two_callers
                                a_receiver)))).
  symmetry. apply firstn_skipn.
Defined.

End OneAtATime.

(** ** The sender *)

Section Sender.
Import Trx AudioSender.
Local Open Scope py_scope.

Lemma advance_advance a b st :
  advance a (advance b st) = advance (b + a) st.
Proof. unfold advance. cbn [self conns mic mic_pos opened]. f_equal. lia. Qed.

Lemma send_frame_ok st s :
  stream (self st) = Some s ->
  sock (self st) <> None ->
  s_channels s = channels (self st) ->
  s_format s = format (self st) ->
  send_frame st =
    (Ret tt, advance (chunk_bytes (self st)) st,
     [EvRead (stream_id s) (chunk_size (self st));
      EvSendall (map (mic st) (seq (mic_pos st) (chunk_bytes (self st))))]).
Proof.
  intros Hs Hk Hc Hf. unfold send_frame. rewrite bind_get_self.
  assert (R : stream_read (chunk_size (self st)) st =
              (Ret (map (mic st) (seq (mic_pos st) (chunk_bytes (self st)))),
               advance (chunk_bytes (self st)) st,
               [EvRead (stream_id s) (chunk_size (self st))])).
  { unfold stream_read. rewrite Hs, Hc, Hf. reflexivity. }
  rewrite (bind_Ret _ _ _ _ _ _ R).
  destruct (sock (self st)); [reflexivity | congruence].
Qed.

Lemma for_range_send (n : nat) :
  forall st s,
  stream (self st) = Some s ->
  sock (self st) <> None ->
  s_channels s = channels (self st) ->
  s_format s = format (self st) ->
  for_range n send_frame st =
    (Ret tt, advance (n * chunk_bytes (self st)) st,
     send_trace (stream_id s) (chunk_size (self st)) (mic st) (mic_pos st)
       (chunk_bytes (self st)) n).
Proof.
  induction n as [|n IH]; intros st s Hs Hk Hc Hf.
  - cbn [for_range send_trace Nat.mul]. unfold ret, advance.
    rewrite Nat.add_0_r. now destruct st.
  - cbn [for_range send_trace].
    rewrite (bind_Ret _ _ _ _ _ _ (send_frame_ok st s Hs Hk Hc Hf)).
    rewrite (IH (advance (chunk_bytes (self st)) st) s Hs Hk Hc Hf).
    cbn [prepend app]. rewrite advance_advance. reflexivity.
Qed.

Lemma send_frames_continuously_runs (fuel : nat) :
  forall st s,
  stream (self st) = Some s ->
  sock (self st) <> None ->
  s_channels s = channels (self st) ->
  s_format s = format (self st) ->
  send_frames_continuously fuel st =
    (Running, advance (fuel * chunk_bytes (self st)) st,
     send_trace (stream_id s) (chunk_size (self st)) (mic st) (mic_pos st)
       (chunk_bytes (self st)) fuel).
Proof.
  induction fuel as [|n IH]; intros st s Hs Hk Hc Hf.
  - cbn [send_frames_continuously send_trace Nat.mul]. unfold running, advance.
    rewrite Nat.add_0_r. now destruct st.
  - cbn [send_frames_continuously send_trace].
    rewrite (bind_Ret _ _ _ _ _ _ (send_frame_ok st s Hs Hk Hc Hf)).
    rewrite (IH (advance (chunk_bytes (self st)) st) s Hs Hk Hc Hf).
    cbn [prepend app]. rewrite advance_advance. reflexivity.
Qed.

Lemma sent_chunks_app t1 t2 :
  sent_chunks (t1 ++ t2) = sent_chunks t1 ++ sent_chunks t2.
Proof. apply flat_map_app. Qed.

Lemma sent_chunks_send_trace sid fr mc len n :
  forall pos,
  length (sent_chunks (send_trace sid fr mc pos len n)) = n /\
  Forall (fun d => length d = len) (sent_chunks (send_trace sid fr mc pos len n)).
Proof.
  induction n as [|n IH]; intros pos.
  - split; constructor.
  - destruct (IH (pos + len)%nat) as [L F].
    change (sent_chunks (send_trace sid fr mc pos len (S n)))
      with (map mc (seq pos len) ::
            sent_chunks (send_trace sid fr mc (pos + len) len n)).
    split.
    + cbn [length]. now rewrite L.
    + constructor; [now rewrite length_map, length_seq | exact F].
Qed.

Lemma send_trace_keeps_handles sid fr mc len n :
  forall pos, filter is_release (send_trace sid fr mc pos len n) = [].
Proof. induction n as [|n IH]; intros pos; [reflexivity | apply IH]. Qed.

Lemma socket_connect_ok st :
  sock (self st) <> None ->
  socket_connect st =
    (Ret tt, st, [EvConnect (host (self st)) (port (self st))]).
Proof.
  intros H. unfold socket_connect. rewrite bind_get_self.
  destruct (sock (self st)); [reflexivity | congruence].
Qed.

Lemma sender_open_audio_stream_ok st :
  audio (self st) <> None ->
  open_audio_stream st =
    (Ret tt, with_stream (capture_stream st) st, [EvOpen (capture_stream st)]).
Proof.
  intros H. unfold open_audio_stream. rewrite bind_get_self.
  unfold audio_open. destruct (audio (self st)); [reflexivity | congruence].
Qed.

(** [start_sending] up to its loop. *)
Lemma start_sending_begins py fuel st :
  audio (self st) <> None ->
  sock (self st) <> None ->
  start_sending py fuel st =
    prepend (start_trace st)
      (bind match duration (self st) with
            | Some d =>
                if negb (d =? 0) then send_frames_with_time_limit py d
                else send_frames_continuously fuel
            | None => send_frames_continuously fuel
            end
            (fun _ => log INFO "Finished audio capture")
            (with_stream (capture_stream st) st)).
Proof.
  intros Ha Hk. unfold start_sending.
  rewrite bind_log, (bind_Ret _ _ _ _ _ _ (socket_connect_ok st Hk)), bind_log.
  rewrite (bind_Ret _ _ _ _ _ _ (sender_open_audio_stream_ok st Ha)), bind_log.
  rewrite bind_get_self, !prepend_prepend. reflexivity.
Qed.

(** A duration limit that yields [n]: [n] chunks, then return. *)
Lemma start_sending_limited py fuel st d n :
  audio (self st) <> None ->
  sock (self st) <> None ->
  duration (self st) = Some d ->
  d <> 0 ->
  frames_to_send py (rate (self st)) (chunk_size (self st)) d = inr n ->
  start_sending py fuel st =
    (Ret tt,
     advance (Z.to_nat n * chunk_bytes (self st))
       (with_stream (capture_stream st) st),
     start_trace st ++
     send_trace (opened st) (chunk_size (self st)) (mic st) (mic_pos st)
       (chunk_bytes (self st)) (Z.to_nat n) ++
     [EvLog INFO "Finished audio capture"]).
Proof.
  intros Ha Hk Hd Hz Hn. rewrite (start_sending_begins py fuel st Ha Hk), Hd.
  apply Z.eqb_neq in Hz. rewrite Hz. cbn [negb].
  unfold send_frames_with_time_limit. rewrite bind_bind, bind_get_self.
  change (rate (self (with_stream (capture_stream st) st)))
    with (rate (self st)).
  change (chunk_size (self (with_stream (capture_stream st) st)))
    with (chunk_size (self st)).
  rewrite Hn. cbn [lift]. rewrite bind_bind, bind_ret.
  erewrite bind_Ret;
    [| apply (for_range_send _ _ (capture_stream st)); auto ].
  cbn [log emit prepend]. reflexivity.
Qed.

(** A duration limit whose count cannot be computed: nothing is sent. *)
Lemma start_sending_fails py fuel st d e :
  audio (self st) <> None ->
  sock (self st) <> None ->
  duration (self st) = Some d ->
  d <> 0 ->
  frames_to_send py (rate (self st)) (chunk_size (self st)) d = inl e ->
  start_sending py fuel st =
    (Raise e, with_stream (capture_stream st) st, start_trace st).
Proof.
  intros Ha Hk Hd Hz Hn. rewrite (start_sending_begins py fuel st Ha Hk), Hd.
  apply Z.eqb_neq in Hz. rewrite Hz. cbn [negb].
  unfold send_frames_with_time_limit. rewrite bind_bind, bind_get_self.
  change (rate (self (with_stream (capture_stream st) st)))
    with (rate (self st)).
  change (chunk_size (self (with_stream (capture_stream st) st)))
    with (chunk_size (self st)).
  rewrite Hn. cbn [lift]. rewrite bind_bind, bind_raise.
  cbn [prepend]. now rewrite app_nil_r.
Qed.

(** No duration limit: the loop is still running after any number of
    rounds. *)
Lemma start_sending_unlimited py fuel st :
  audio (self st) <> None ->
  sock (self st) <> None ->
  duration (self st) = Some 0 \/ duration (self st) = None ->
  start_sending py fuel st =
    (Running,
     advance (fuel * chunk_bytes (self st))
       (with_stream (capture_stream st) st),
     start_trace st ++
     send_trace (opened st) (chunk_size (self st)) (mic st) (mic_pos st)
       (chunk_bytes (self st)) fuel).
Proof.
  intros Ha Hk Hd. rewrite (start_sending_begins py fuel st Ha Hk).
  assert (E : match duration (self st) with
              | Some d =>
                  if negb (d =? 0) then send_frames_with_time_limit py d
                  else send_frames_continuously fuel
              | None => send_frames_continuously fuel
              end = send_frames_continuously fuel)
    by (destruct Hd as [-> | ->]; reflexivity).
  rewrite E.
  erewrite bind_Running;
    [| apply (send_frames_continuously_runs _ _ (capture_stream st)); auto ].
  reflexivity.
Qed.

End Sender.

(** ** The [--tx] branch *)

Section MainTx.
Import Trx AudioSender.
Local Open Scope py_scope.

(** The loop bound at the default rate and chunk size: ten seconds give
    430 rounds under both interpreters; a hundred give 4300 where [/]
    is floor division and 4306 where it is true division. *)
Example frames_to_send_10s :
  frames_to_send Python2 44100 1024 10 = inr 430 /\
  frames_to_send Python3 44100 1024 10 = inr 430.
Proof. split; vm_compute; reflexivity. Qed.

Example frames_to_send_100s :
  frames_to_send Python2 44100 1024 100 = inr 4300 /\
  frames_to_send Python3 44100 1024 100 = inr 4306.
Proof. split; vm_compute; reflexivity. Qed.

(** [1 / 49 * 49] is [0.9999999999999999] in binary64. *)
Example frames_to_send_inexact : frames_to_send Python3 1 49 49 = inr 0.
Proof. vm_compute; reflexivity. Qed.

Lemma frames_to_send_errors py r c d e :
  frames_to_send py r c d = inl e ->
  e = ZeroDivisionError \/ e = OverflowError \/ e = ValueError.
Proof.
  unfold frames_to_send, true_div, float_of_int, int_of_float.
  destruct py.
  - destruct (c =? 0); [|discriminate]. intros [= <-]. auto.
  - destruct (c =? 0); [intros [= <-]; auto|].
    destruct (SFdiv prec emax (exact_of_Z r) (exact_of_Z c));
      try (intros [= <-]; now auto);
      (destruct (binary_normalize prec emax d 0 false);
       try (intros [= <-]; now auto);
       match goal with
       | |- context [SFmul ?p ?m ?x ?y] => destruct (SFmul p m x y)
       end; try discriminate; intros [= <-]; auto).
Qed.

Lemma frames_to_send_python2 r c d n :
  frames_to_send Python2 r c d = inr n -> c <> 0 /\ n = r / c * d.
Proof.
  unfold frames_to_send. destruct (c =? 0) eqn:E; [discriminate|].
  intros [= <-]. apply Z.eqb_neq in E. now split.
Qed.

(** The branch, up to what [start_sending] does. *)
Lemma main_tx_begins py args fuel st :
  main_tx py args fuel st =
    try_except
      (fun st0 =>
         prepend (tx_head args)
           (bind (start_sending py fuel)
                 (fun _ => call_method py fuel "stop_senddng")
                 (tx_state args st0)))
      (on_KeyboardInterrupt stop_sending) st.
Proof.
  unfold main_tx, try_except, init.
  run. rewrite !prepend_prepend. reflexivity.
Qed.

Lemma tx_state_ready args st :
  audio (self (tx_state args st)) <> None /\
  sock (self (tx_state args st)) <> None /\
  duration (self (tx_state args st)) = Some (arg_duration args).
Proof. repeat split; discriminate. Qed.

(** With a duration limit that yields [n]: [n] chunks are sent, the
    send loop finishes, and the call that follows raises. *)
Lemma main_tx_limited py args fuel st n :
  arg_duration args <> 0 ->
  frames_to_send py (arg_rate args) (arg_chunk_size args) (arg_duration args)
    = inr n ->
  main_tx py args fuel st =
    (Raise (AttributeError "stop_senddng"),
     advance (Z.to_nat n * chunk_bytes (self (tx_state args st)))
       (with_stream (capture_stream (tx_state args st)) (tx_state args st)),
     tx_head args ++ start_trace (tx_state args st) ++
     send_trace (opened st) (arg_chunk_size args) (mic st) (mic_pos st)
       (chunk_bytes (self (tx_state args st))) (Z.to_nat n) ++
     [EvLog INFO "Finished audio capture"]).
Proof.
  intros Hd Hn. rewrite main_tx_begins. unfold try_except.
  destruct (tx_state_ready args st) as [Ha [Hk Hdur]].
  rewrite (bind_Ret _ _ _ _ _ _
             (start_sending_limited py fuel (tx_state args st)
                (arg_duration args) n Ha Hk Hdur Hd Hn)).
  cbn [call_method String.eqb Ascii.eqb Bool.eqb raise prepend app
       on_KeyboardInterrupt].
  now rewrite app_nil_r.
Qed.

Lemma main_tx_unlimited py args fuel st :
  arg_duration args = 0 ->
  main_tx py args fuel st =
    (Running,
     advance (fuel * chunk_bytes (self (tx_state args st)))
       (with_stream (capture_stream (tx_state args st)) (tx_state args st)),
     tx_head args ++ start_trace (tx_state args st) ++
     send_trace (opened st) (arg_chunk_size args) (mic st) (mic_pos st)
       (chunk_bytes (self (tx_state args st))) fuel).
Proof.
  intros Hd. rewrite main_tx_begins. unfold try_except.
  destruct (tx_state_ready args st) as [Ha [Hk Hdur]].
  rewrite Hd in Hdur.
  rewrite (bind_Running _ _ _ _ _
             (start_sending_unlimited py fuel (tx_state args st)
                Ha Hk (or_introl Hdur))).
  reflexivity.
Qed.

Lemma main_tx_fails py args fuel st e :
  arg_duration args <> 0 ->
  frames_to_send py (arg_rate args) (arg_chunk_size args) (arg_duration args)
    = inl e ->
  main_tx py args fuel st =
    (Raise e,
     with_stream (capture_stream (tx_state args st)) (tx_state args st),
     tx_head args ++ start_trace (tx_state args st)).
Proof.
  intros Hd Hn. rewrite main_tx_begins. unfold try_except.
  destruct (tx_state_ready args st) as [Ha [Hk Hdur]].
  rewrite (bind_Raise _ _ _ _ _ _
             (start_sending_fails py fuel (tx_state args st)
                (arg_duration args) e Ha Hk Hdur Hd Hn)).
  cbn [prepend].
  destruct (frames_to_send_errors _ _ _ _ _ Hn) as [-> | [-> | ->]];
    reflexivity.
Qed.

End MainTx.

(** ** The sender's claims *)

Section SenderClaims.
Import Trx AudioSender.

Lemma sent_chunks_head args st :
  sent_chunks (tx_head args ++ start_trace st) = [].
Proof. reflexivity. Qed.

Lemma sent_chunks_start_trace st : sent_chunks (start_trace st) = [].
Proof. reflexivity. Qed.

(** C3, as stated, fails: with the default rate 44100 and chunk size
    1024 and a duration of 10 seconds, 430 chunks are sent under either
    interpreter, where rounding, to nearest or upward, gives 431. *)
Lemma sender_count_is_truncated_not_rounded :
  Z.of_nat (length (sent_chunks (events
     (start_sending Python2 0 (a_sender (with_duration 10))))))
    <> spec_round 44100 1024 10 /\
  Z.of_nat (length (sent_chunks (events
     (start_sending Python2 0 (a_sender (with_duration 10))))))
    <> spec_ceil 44100 1024 10 /\
  Z.of_nat (length (sent_chunks (events
     (start_sending Python3 0 (a_sender (with_duration 10))))))
    <> spec_round 44100 1024 10 /\
  Z.of_nat (length (sent_chunks (events
     (start_sending Python3 0 (a_sender (with_duration 10))))))
    <> spec_ceil 44100 1024 10.
Proof.
  assert (E : forall py,
    Z.of_nat (length (sent_chunks (events
       (start_sending py 0 (a_sender (with_duration 10)))))) = 430).
  { intros py.
    rewrite (start_sending_limited py 0 (a_sender (with_duration 10)) 10 430);
      [ | discriminate | discriminate | reflexivity | discriminate
        | now destruct py; vm_compute ].
    unfold events. cbn [snd]. rewrite !sent_chunks_app, sent_chunks_start_trace.
    cbn [app]. rewrite length_app.
    rewrite (proj1 (sent_chunks_send_trace _ _ _ _ _ _)). reflexivity. }
  rewrite !E. vm_compute. repeat split; discriminate.
Qed.

(** C3, amended: with a non-zero duration limit [d] the sender sends
    exactly [int(rate / chunk_size * d)] chunks, none when that is
    negative, and [start_sending] then returns; the count is truncated,
    not rounded: under Python 2 it is [(rate div chunk_size) * d]. *)
Theorem sender_sends_truncated_count
    (py : python) (fuel : nat) (st : state) (d n : Z) :
  audio (self st) <> None ->
  sock (self st) <> None ->
  duration (self st) = Some d ->
  d <> 0 ->
  frames_to_send py (rate (self st)) (chunk_size (self st)) d = inr n ->
  result (start_sending py fuel st) = Ret tt /\
  length (sent_chunks (events (start_sending py fuel st))) = Z.to_nat n /\
  (py = Python2 -> n = rate (self st) / chunk_size (self st) * d).
Proof.
  intros Ha Hk Hd Hz Hn.
  rewrite (start_sending_limited py fuel st d n Ha Hk Hd Hz Hn).
  split; [reflexivity | split].
  - unfold events. cbn [snd]. rewrite !sent_chunks_app, sent_chunks_start_trace.
    cbn [app]. rewrite length_app.
    rewrite (proj1 (sent_chunks_send_trace _ _ _ _ _ _)). simpl. lia.
  - intros ->. now apply frames_to_send_python2 in Hn.
Qed.

Lemma sender_sends_truncated_count_witness :
  result (start_sending Python2 0 (a_sender (with_duration 10))) = Ret tt /\
  length (sent_chunks (events
            (start_sending Python2 0 (a_sender (with_duration 10)))))
    = Z.to_nat 430.
Proof.
  destruct (sender_sends_truncated_count Python2 0
              (a_sender (with_duration 10)) 10 430) as [R [L _]].
  - discriminate.
  - discriminate.
  - reflexivity.
  - discriminate.
  - reflexivity.
  - split; [exact R | exact L].
Defined.

(** C10: with a duration of 0, the parser's default, the [--tx] branch
    runs the unbounded loop: after any number of rounds it has sent
    that many chunks and has not returned. *)
Theorem zero_duration_means_no_limit
    (py : python) (args : Args) (fuel : nat) (st : state) :
  arg_duration args = 0 ->
  result (main_tx py args fuel st) = Running /\
  length (sent_chunks (events (main_tx py args fuel st))) = fuel.
Proof.
  intros Hd. rewrite (main_tx_unlimited py args fuel st Hd).
  split; [reflexivity|].
  unfold events. cbn [snd]. rewrite app_assoc, sent_chunks_app, sent_chunks_head.
  apply sent_chunks_send_trace.
Qed.

Lemma zero_duration_means_no_limit_witness :
  arg_duration default_args = 0 /\
  result (main_tx Python2 default_args 3 (boot two_chunks silence)) = Running /\
  length (sent_chunks (events
            (main_tx Python2 default_args 3 (boot two_chunks silence)))) = 3%nat.
Proof.
  split; [reflexivity|].
  apply (zero_duration_means_no_limit Python2 default_args 3
           (boot two_chunks silence)).
  reflexivity.
Defined.

(** C7: for a positive chunk size and channel count, every chunk the
    [--tx] branch hands to [sendall] is [chunk_size * channels * 2]
    bytes long. *)
Theorem sent_chunks_have_configured_length
    (py : python) (args : Args) (fuel : nat) (st : state) :
  0 < arg_chunk_size args ->
  0 < arg_channels args ->
  Forall (fun d => Z.of_nat (length d)
                   = arg_chunk_size args * arg_channels args * 2)
         (sent_chunks (events (main_tx py args fuel st))).
Proof.
  intros Hc Hn.
  assert (L : Z.of_nat (chunk_bytes (self (tx_state args st)))
              = arg_chunk_size args * arg_channels args * 2).
  { unfold chunk_bytes. cbn. rewrite Z2Nat.id; nia. }
  assert (F : forall k pos,
    Forall (fun d => Z.of_nat (length d)
                     = arg_chunk_size args * arg_channels args * 2)
      (sent_chunks (tx_head args ++ start_trace (tx_state args st) ++
         send_trace (opened st) (arg_chunk_size args) (mic st) pos
           (chunk_bytes (self (tx_state args st))) k))).
  { intros k pos. rewrite app_assoc, sent_chunks_app, sent_chunks_head.
    cbn [app].
    eapply Forall_impl; [|apply sent_chunks_send_trace].
    intros d Hd. cbv beta in Hd. now rewrite Hd. }
  destruct (Z.eq_dec (arg_duration args) 0) as [Hd|Hd].
  - rewrite (main_tx_unlimited py args fuel st Hd). apply F.
  - destruct (frames_to_send py (arg_rate args) (arg_chunk_size args)
                (arg_duration args)) as [e|n] eqn:E.
    + rewrite (main_tx_fails py args fuel st e Hd E). constructor.
    + rewrite (main_tx_limited py args fuel st n Hd E).
      unfold events. cbn [snd].
      rewrite !app_assoc, sent_chunks_app, <- !app_assoc.
      apply Forall_app. split; [apply F | constructor].
Qed.

Lemma sent_chunks_have_configured_length_witness :
  0 < arg_chunk_size default_args /\ 0 < arg_channels default_args /\
  Forall (fun d => Z.of_nat (length d) = 1024 * 1 * 2)
         (sent_chunks (events
            (main_tx Python2 default_args 3 (boot two_chunks silence)))).
Proof.
  split; [reflexivity | split; [reflexivity|]].
  apply (sent_chunks_have_configured_length Python2 default_args 3
           (boot two_chunks silence)); reflexivity.
Defined.

(** C4 fails on the code: a one-second transmission with the default
    arguments sends its 43 chunks, then the normal-exit path calls the
    misspelt [stop_senddng], which raises [AttributeError], and no
    stream, PyAudio or socket handle has been released. *)
Theorem sender_normal_exit_skips_shutdown :
  result (main_tx Python2 (with_duration 1) 0 (boot two_chunks silence))
    = Raise (AttributeError "stop_senddng") /\
  length (sent_chunks (events
     (main_tx Python2 (with_duration 1) 0 (boot two_chunks silence))))
    = 43%nat /\
  filter is_release (events
     (main_tx Python2 (with_duration 1) 0 (boot two_chunks silence))) = [].
Proof.
  rewrite (main_tx_limited Python2 (with_duration 1) 0
             (boot two_chunks silence) 43); [|discriminate|reflexivity].
  split; [reflexivity | split].
  - unfold events. cbn [snd].
    rewrite app_assoc, sent_chunks_app, sent_chunks_head. cbn [app].
    rewrite sent_chunks_app, length_app.
    rewrite (proj1 (sent_chunks_send_trace _ _ _ _ _ _)). reflexivity.
  - unfold events. cbn [snd].
    rewrite !filter_app, send_trace_keeps_handles. reflexivity.
Qed.

End SenderClaims.

(** ** Shutdown *)

Section Shutdown.
Import Trx.
Local Open Scope py_scope.

Lemma shutdown_ok st : shutdown st = (Ret tt, st, release_calls (self st)).
Proof.
  unfold shutdown, release_calls. run.
  destruct (stream (self st)) as [s|], (audio (self st)) as [a|],
           (sock (self st)) as [k|]; reflexivity.
Qed.



End Shutdown.

(** ** The accept loop and the wave file *)

Section ReceiverDefects.
Import Trx AudioReceiver.
Local Open Scope py_scope.

(** C5 fails on the code: after one connection has been handled, an
    [accept] that raises a socket error other than a timeout or
    [EINTR] does not end the loop: the loop logs the previous caller
    again, handles the previous connection object once more, and calls
    [accept] again. *)
Theorem accept_error_does_not_end_the_loop :
  result (listen_and_process Python2 caller_then_abort a_receiver)
    = Running /\
  skipn 19 (events (listen_and_process Python2 caller_then_abort a_receiver))
    = [EvAccept (AcceptRaises (socket_error ECONNABORTED));
       EvLog INFO "New connection from ('192.0.2.1', 40000)";
       EvServe 0;
       EvLog INFO "Receiving audio...";
       EvOpen {| stream_id := 1; s_format := paInt16; s_channels := 1;
                 s_rate := 44100; s_input := false; s_device_index := None;
                 s_frames_per_buffer := 1024 |};
       EvRecv 0 1024 (Received []);
       EvLog INFO "Data stopped.";
       EvStopStream 1; EvStreamClose 1;
       EvServed 0;
       EvAccept (AcceptRaises socket_timeout)].
Proof. split; reflexivity. Qed.

(** C8 fails on the code: with an output file open, the first pass
    through the loop raises [NameError] on the name [wf]; the chunk
    that was played is not in the file, nor is any other, and the
    handler is left with its stream open. *)
Theorem wave_file_write_raises_NameError :
  result ((open_wave_file "out.wav" ;; receive_audio Python2 0) a_receiver)
    = Raise (NameError "wf") /\
  wf (self (final ((open_wave_file "out.wav" ;; receive_audio Python2 0)
                     a_receiver)))
    = Some {| wf_filename := "out.wav"; nchannels := 1; sampwidth := 2;
              framerate := 44100; frames := [] |} /\
  events ((open_wave_file "out.wav" ;; receive_audio Python2 0) a_receiver)
    = [EvWaveOpen "out.wav";
       EvLog INFO "Receiving audio...";
       EvOpen {| stream_id := 0; s_format := paInt16; s_channels := 1;
                 s_rate := 44100; s_input := false; s_device_index := None;
                 s_frames_per_buffer := 1024 |};
       EvRecv 0 1024 (Received [x61; x62]);
       EvWrite 0 [x61; x62];
       EvRecv 0 1024 (Received [x63]);
       EvLog DEBUG "Frame 1"].
Proof. repeat split; reflexivity. Qed.

End ReceiverDefects.

(** ** What does hold of the accept loop, and the other interpreter *)

Section Remarks.
Import Trx AudioReceiver.
Local Open Scope py_scope.

(** A timeout is swallowed: the loop goes on to the next [accept]. *)
Lemma accept_timeout_is_retried py incoming bound st :
  accept_loop py (AcceptRaises socket_timeout :: incoming) bound st =
    prepend [EvAccept (AcceptRaises socket_timeout)]
      (accept_loop py incoming bound st).
Proof. reflexivity. Qed.


(** Another socket error on the first [accept] ends the loop too, by
    the [UnboundLocalError] of the log line that follows. *)
Lemma accept_error_before_any_connection py errno incoming st :
  errno <> EINTR ->
  accept_loop py (AcceptRaises (socket_error errno) :: incoming) None st =
    (Raise (UnboundLocalError "addr"), st,
     [EvAccept (AcceptRaises (socket_error errno))]).
Proof.
  intros H. cbn [accept_loop]. apply Z.eqb_neq in H. rewrite H. reflexivity.
Qed.

Lemma never_returns_bind_l {A B} (m : M A) (k : A -> M B) :
  never_returns m -> never_returns (bind m k).
Proof.
  intros H st b. specialize (H st). unfold bind, result in *.
  destruct (m st) as [[[a|e|] st1] t1]; simpl in *; try discriminate.
  now elim (H a).
Qed.

Lemma never_returns_bind_r {A B} (m : M A) (k : A -> M B) :
  (forall a, never_returns (k a)) -> never_returns (bind m k).
Proof.
  intros H st b. unfold bind, result.
  destruct (m st) as [[[a|e|] st1] t1]; simpl; try discriminate.
  specialize (H a st1 b). unfold result in H.
  now destruct (k a st1) as [[o st2] t2].
Qed.

Lemma receive_loop_python3 conn n :
  forall data frame, never_returns (receive_loop Python3 conn n data frame).
Proof.
  induction n as [|n IH]; intros data frame;
    cbn [receive_loop differs_from_empty_str];
    do 4 (apply never_returns_bind_r; intros).
  - intros st1 u. discriminate.
  - apply IH.
Qed.

(** Under Python 3 the test [data != ''] never fails, and the handler
    does not return on any connection. *)
Remark receive_audio_python3_never_returns conn :
  never_returns (receive_audio Python3 conn).
Proof.
  unfold receive_audio. do 4 (apply never_returns_bind_r; intros).
  apply never_returns_bind_l, receive_loop_python3.
Qed.

End Remarks.

(** * Further properties *)

(** ** The echo handler beyond its first kilobyte and at its edges *)

Section EchoMore.
Import PyBytes EchoServer.

Lemma returned_serve (sent : bytes) (addr : string * Z) :
  returned (serve sent addr) = strip (recv sent 1024).
Proof.
  unfold serve, handle, returned. cbn [snd request map concat app].
  apply app_nil_r.
Qed.

Lemma lstrip_spaces (s : bytes) : forallb is_space s = true -> lstrip s = [].
Proof.
  induction s as [|b s IH]; [reflexivity|]. simpl.
  destruct (is_space b); [exact IH | discriminate].
Qed.

Lemma strip_empty_iff (s : bytes) :
  strip s = [] <-> forallb is_space s = true.
Proof.
  split.
  - intros E. destruct (strip_spec s) as [l [r [Hs [Hl [Hr _]]]]].
    rewrite E in Hs. rewrite Hs. simpl. rewrite forallb_app, Hl, Hr.
    reflexivity.
  - intros H. unfold strip. now rewrite (lstrip_spaces s H).
Qed.

Lemma strip_length (s : bytes) : (length (strip s) <= length s)%nat.
Proof.
  destruct (strip_spec s) as [l [r [Hs _]]].
  rewrite Hs at 2. rewrite !length_app. lia.
Qed.

Lemma strip_idempotent (s : bytes) : strip (strip s) = strip s.
Proof.
  destruct (strip_spec s) as [l [r [_ [_ [_ H]]]]]. now apply strip_fixed.
Qed.

Lemma recv_length (sent : bytes) : (length (recv sent 1024) <= 1024)%nat.
Proof.
  unfold recv. rewrite length_firstn.
  change (Z.to_nat 1024) with 1024%nat. lia.
Qed.

(** X1: whatever the client sends, the handler looks at the first 1024
    bytes only: what follows them changes nothing the handler does, and
    the reply is a piece of those 1024 bytes with only whitespace cut
    off at each end. *)
Theorem echo_ignores_what_follows_1024_bytes
    (sent : bytes) (addr : string * Z) :
  serve sent addr = serve (firstn 1024 sent) addr /\
  (length (returned (serve sent addr)) <= 1024)%nat /\
  exists l r, firstn 1024 sent = l ++ returned (serve sent addr) ++ r /\
              forallb is_space l = true /\ forallb is_space r = true.
Proof.
  assert (R : recv sent 1024 = firstn 1024 sent) by reflexivity.
  split; [|split].
  - unfold serve, handle. cbn [snd request client_address fst]. unfold recv.
    now rewrite firstn_firstn, Nat.min_id.
  - rewrite returned_serve.
    pose proof (strip_length (recv sent 1024)). pose proof (recv_length sent).
    lia.
  - rewrite returned_serve, R.
    destruct (strip_spec (firstn 1024 sent)) as [l [r [Hs [Hl [Hr _]]]]].
    now exists l, r.
Qed.

(** X2: echoing is idempotent: a reply sent back to the service comes
    back unchanged. *)
Theorem echo_of_a_reply_is_the_reply
    (sent : bytes) (addr addr' : string * Z) :
  returned (serve (returned (serve sent addr)) addr')
    = returned (serve sent addr).
Proof.
  rewrite !returned_serve.
  rewrite (recv_all (strip (recv sent 1024))).
  - apply strip_idempotent.
  - pose proof (strip_length (recv sent 1024)). pose proof (recv_length sent).
    lia.
Qed.

(** X3: the reply is empty exactly when the first 1024 bytes are all
    whitespace (in particular for an empty read), and the handler then
    still prints and calls [sendall], with the empty string. *)
Theorem echo_reply_is_empty_iff_all_whitespace
    (sent : bytes) (addr : string * Z) :
  (returned (serve sent addr) = [] <->
   forallb is_space (firstn 1024 sent) = true) /\
  (forallb is_space (firstn 1024 sent) = true ->
   serve sent addr =
     [EvRecv 1024; EvPrint (fst addr ++ " wrote:")%string;
      EvPrintData []; EvSendall []]).
Proof.
  split.
  - rewrite returned_serve. apply strip_empty_iff.
  - intros H. unfold serve, handle. cbn [snd request client_address fst].
    change (recv sent 1024) with (firstn 1024 sent).
    now rewrite (proj2 (strip_empty_iff _) H).
Qed.

Lemma echo_reply_is_empty_iff_all_whitespace_witness :
  serve [x20; x0a] ("192.0.2.1"%string, 40000) =
    [EvRecv 1024; EvPrint "192.0.2.1 wrote:"%string;
     EvPrintData []; EvSendall []].
Proof.
  apply (proj2 (echo_reply_is_empty_iff_all_whitespace [x20; x0a]
                  ("192.0.2.1"%string, 40000))).
  reflexivity.
Defined.

End EchoMore.

(** ** The receiver: time-outs, interrupts, read errors, the wave file *)

Section ReceiverMore.
Import Trx AudioReceiver.
Local Open Scope py_scope.

Lemma timeouts_are_skipped py (n : nat) :
  forall rest bound st,
  accept_loop py (timeouts n ++ rest) bound st =
    prepend (repeat (EvAccept (AcceptRaises socket_timeout)) n)
      (accept_loop py rest bound st).
Proof.
  induction n as [|n IH]; intros rest bound st.
  - symmetry. apply prepend_nil.
  - cbn [timeouts repeat app]. rewrite accept_timeout_is_retried.
    fold (timeouts n). rewrite IH, prepend_prepend. reflexivity.
Qed.

Lemma listen_and_process_begins py incoming st :
  sock (self st) <> None ->
  listen_and_process py incoming st =
    prepend (listen_trace st) (accept_loop py incoming None st).
Proof.
  intros H. unfold listen_and_process. rewrite bind_get_self.
  destruct (sock (self st)); [|congruence].
  rewrite !bind_emit, bind_log, !prepend_prepend. reflexivity.
Qed.

(** X4: while every [accept] times out the receiver stays in its
    loop: it has not returned, has raised nothing, and has done nothing
    but call [accept] again. *)
Theorem listening_survives_timeouts (py : python) (n : nat) (st : state) :
  sock (self st) <> None ->
  listen_and_process py (timeouts n) st =
    (Running, st,
     listen_trace st ++ repeat (EvAccept (AcceptRaises socket_timeout)) n).
Proof.
  intros H. rewrite (listen_and_process_begins py _ st H).
  rewrite <- (app_nil_r (timeouts n)), timeouts_are_skipped.
  cbn [accept_loop running prepend]. now rewrite app_nil_r.
Qed.

Lemma listening_survives_timeouts_witness :
  listen_and_process Python2 (timeouts 3) a_receiver =
    (Running, a_receiver,
     listen_trace a_receiver ++
     repeat (EvAccept (AcceptRaises socket_timeout)) 3).
Proof.
  apply (listening_survives_timeouts Python2 3 a_receiver). discriminate.
Defined.




End ReceiverMore.

(** ** The handler: failing reads, the wave file, the stream it leaves *)

Section HandlerMore.
Import Trx AudioReceiver.
Local Open Scope py_scope.

Lemma recv_raises st conn n e l :
  conns st conn = RecvRaises e :: l ->
  recv conn n st =
    (Raise e, set_conn conn l st, [EvRecv conn n (RecvRaises e)]).
Proof. unfold recv. now intros ->. Qed.

Lemma differs_nonempty py b (data : bytes) :
  differs_from_empty_str py (b :: data) = true.
Proof. now destruct py. Qed.

(** One pass of the loop body, under either interpreter, when the read
    returns. *)
Lemma receive_loop_pass py conn n b data frame st s data' st' :
  stream (self st) = Some s ->
  wf (self st') = None ->
  recv conn 1024 st = (Ret data', st', [EvRecv conn 1024 (Received data')]) ->
  receive_loop py conn n (b :: data) frame st =
    prepend [EvWrite (stream_id s) (b :: data);
             EvRecv conn 1024 (Received data');
             EvLog DEBUG ("Frame " ++ string_of_Z frame)]
      match n with
      | S n' => receive_loop py conn n' data' (frame + 1) st'
      | O => (if differs_from_empty_str py data' then running
              else ret tt) st'
      end.
Proof.
  intros Hs Hw Hr.
  destruct n; cbn [receive_loop]; rewrite differs_nonempty;
    rewrite (bind_Ret _ _ _ _ _ _ (stream_write_ok _ _ _ Hs));
    rewrite (bind_Ret _ _ _ _ _ _ Hr), bind_log;
    rewrite (bind_Ret _ _ _ _ _ _ (write_to_wave_file_off _ _ Hw));
    rewrite !prepend_prepend; cbn [app]; reflexivity.
Qed.

(** ... and when the read raises. *)
Lemma receive_loop_read_raises py conn n b data frame st s e st' :
  stream (self st) = Some s ->
  recv conn 1024 st = (Raise e, st', [EvRecv conn 1024 (RecvRaises e)]) ->
  receive_loop py conn n (b :: data) frame st =
    (Raise e, st',
     [EvWrite (stream_id s) (b :: data); EvRecv conn 1024 (RecvRaises e)]).
Proof.
  intros Hs Hr.
  destruct n; cbn [receive_loop]; rewrite differs_nonempty;
    rewrite (bind_Ret _ _ _ _ _ _ (stream_write_ok _ _ _ Hs));
    rewrite (bind_Raise _ _ _ _ _ _ Hr); reflexivity.
Qed.

Lemma receive_loop_until_error py conn s e (more : list bytes) :
  forall (rest : list recv_result) (b : byte) (data : bytes) (frame : Z)
         (st : state),
  stream (self st) = Some s ->
  wf (self st) = None ->
  conns st conn = map Received more ++ RecvRaises e :: rest ->
  Forall (fun d => d <> []) more ->
  exists st' t,
    receive_loop py conn (length (conns st conn)) (b :: data) frame st =
      (Raise e, st', t) /\
    played t = (b :: data) :: more /\
    filter is_release t = [] /\
    self st' = self st.
Proof.
  induction more as [|d more IH]; intros rest b data frame st Hs Hw Hc Hm.
  - simpl in Hc. eexists _, _. split; [|split; [|split]].
    + apply (receive_loop_read_raises _ _ _ _ _ _ _ s e _ Hs).
      apply recv_raises, Hc.
    + reflexivity.
    + reflexivity.
    + reflexivity.
  - inversion Hm as [|? ? Hd Hm']; subst.
    destruct d as [|b' d]; [congruence|].
    set (st1 := set_conn conn (map Received more ++ RecvRaises e :: rest) st).
    destruct (IH rest b' d (frame + 1) st1) as [st' [t [E [P [R S1]]]]]; auto.
    { apply conns_set_conn. }
    unfold st1 in E. rewrite conns_set_conn in E.
    rewrite Hc. cbn [map app length].
    rewrite (receive_loop_pass _ _ _ _ _ _ _ s (b' :: d) st1 Hs Hw
               (recv_data _ _ _ _ _ Hc)).
    unfold st1. rewrite E. cbn [prepend].
    eexists _, _. split; [reflexivity|].
    split; [|split].
    + cbn [app played flat_map]. f_equal. exact P.
    + cbn [app filter is_release]. exact R.
    + exact S1.
Qed.

(** X5: when a read on the connection raises, after any number of
    chunks, the handler has played exactly the chunks read before it,
    raises that exception with its stream neither stopped nor closed,
    and the exception ends the accept loop. *)
Theorem read_error_leaves_the_stream_open
    (py : python) (conn : nat) (st : state) (chunks : list bytes)
    (e : exn) (rest : list recv_result) :
  audio (self st) <> None ->
  wf (self st) = None ->
  conns st conn = map Received chunks ++ RecvRaises e :: rest ->
  Forall (fun d => d <> []) chunks ->
  result (receive_audio py conn st) = Raise e /\
  played (events (receive_audio py conn st)) = chunks /\
  filter is_release (events (receive_audio py conn st)) = [] /\
  stream (self (final (receive_audio py conn st)))
    = Some (playback_stream st) /\
  forall incoming addr bound,
    result (accept_loop py (Accepted conn addr :: incoming) bound st)
      = Raise e.
Proof.
  intros Ha Hw Hc Hm.
  assert (E : exists st' t,
    receive_audio py conn st = (Raise e, st', t) /\
    played t = chunks /\ filter is_release t = [] /\
    stream (self st') = Some (playback_stream st)).
  { unfold receive_audio.
    rewrite bind_log, (bind_Ret _ _ _ _ _ _ (open_audio_stream_ok st Ha)).
    set (st1 := with_stream (playback_stream st) st).
    assert (Hs1 : stream (self st1) = Some (playback_stream st))
      by reflexivity.
    assert (Hw1 : wf (self st1) = None) by exact Hw.
    assert (Hc1 : conns st1 conn = map Received chunks ++ RecvRaises e :: rest)
      by exact Hc.
    clearbody st1. destruct chunks as [|[|b d] more].
    - rewrite (bind_Raise _ _ _ _ _ _ (recv_raises _ _ _ _ _ Hc1)).
      eexists _, _. split; [reflexivity|]. repeat split. exact Hs1.
    - inversion Hm; congruence.
    - inversion Hm as [|? ? Hd Hm']; subst.
      set (st2 := set_conn conn (map Received more ++ RecvRaises e :: rest)
                    st1).
      destruct (receive_loop_until_error py conn (playback_stream st) e more
                  rest b d 1 st2) as [st' [t [L [P [R S1]]]]]; auto.
      { apply conns_set_conn. }
      rewrite (bind_Ret _ _ _ _ _ _ (recv_data _ _ _ _ _ Hc1)), bind_get.
      fold st2. rewrite (bind_Raise _ _ _ _ _ _ L).
      eexists _, _. split; [reflexivity|].
      split; [|split].
      + cbn [app played flat_map]. exact P.
      + cbn [app filter is_release]. exact R.
      + now rewrite S1. }
  destruct E as [st' [t [E [P [R S1]]]]].
  rewrite E. cbn [result events final fst snd].
  repeat split; auto.
  intros incoming addr bound. cbn [accept_loop].
  rewrite bind_emit, bind_log, bind_emit, (bind_Raise _ _ _ _ _ _ E).
  reflexivity.
Qed.

Lemma read_error_leaves_the_stream_open_witness :
  result (receive_audio Python2 0
            (set_conn 0 [Received [x61]; RecvRaises socket_timeout]
               a_receiver))
    = Raise socket_timeout /\
  played (events (receive_audio Python2 0
            (set_conn 0 [Received [x61]; RecvRaises socket_timeout]
               a_receiver)))
    = [[x61]].
Proof.
  destruct (read_error_leaves_the_stream_open Python2 0
              (set_conn 0 [Received [x61]; RecvRaises socket_timeout]
                 a_receiver)
              [[x61]] socket_timeout []) as [R [P _]].
  - discriminate.
  - reflexivity.
  - reflexivity.
  - repeat constructor; discriminate.
  - split; [exact R | exact P].
Defined.

End HandlerMore.

Section WaveMore.
Import Trx AudioReceiver.
Local Open Scope py_scope.

Lemma write_to_wave_file_on st w data :
  wf (self st) = Some w ->
  write_to_wave_file data st = (Raise (NameError "wf"), st, []).
Proof.
  unfold write_to_wave_file. rewrite bind_get_self. intros ->. reflexivity.
Qed.

Lemma recv_returns st conn n :
  next_read_returns (conns st conn) = true ->
  exists d st',
    recv conn n st = (Ret d, st', [EvRecv conn n (Received d)]) /\
    self st' = self st.
Proof.
  unfold recv. destruct (conns st conn) as [|[d|e] l]; [| |discriminate];
    intros _; eexists _, _; split; reflexivity.
Qed.

(** X6: with an output file open, under either interpreter, a
    connection whose first read brings data and whose second read
    returns makes the handler raise [NameError] on [wf]: the first
    chunk has been played and no other, the file is as [open_wave_file]
    left it, and the stream is neither stopped nor closed. *)
Theorem open_wave_file_breaks_the_handler
    (py : python) (conn : nat) (st : state) (w : Wave_write)
    (b : byte) (c : bytes) (rest : list recv_result) :
  audio (self st) <> None ->
  wf (self st) = Some w ->
  conns st conn = Received (b :: c) :: rest ->
  next_read_returns rest = true ->
  result (receive_audio py conn st) = Raise (NameError "wf") /\
  played (events (receive_audio py conn st)) = [b :: c] /\
  wf (self (final (receive_audio py conn st))) = Some w /\
  filter is_release (events (receive_audio py conn st)) = [].
Proof.
  intros Ha Hw Hc Hn. unfold receive_audio.
  rewrite bind_log, (bind_Ret _ _ _ _ _ _ (open_audio_stream_ok st Ha)).
  set (st1 := with_stream (playback_stream st) st).
  assert (Hs1 : stream (self st1) = Some (playback_stream st)) by reflexivity.
  assert (Hw1 : wf (self st1) = Some w) by exact Hw.
  assert (Hc1 : conns st1 conn = Received (b :: c) :: rest) by exact Hc.
  clearbody st1.
  rewrite (bind_Ret _ _ _ _ _ _ (recv_data _ _ _ _ _ Hc1)), bind_get.
  set (st2 := set_conn conn rest st1).
  assert (Hn2 : next_read_returns (conns st2 conn) = true)
    by (unfold st2; now rewrite conns_set_conn).
  destruct (recv_returns st2 conn 1024 Hn2) as [d [st3 [R S3]]].
  assert (L : receive_loop py conn (length (conns st2 conn)) (b :: c) 1 st2 =
              (Raise (NameError "wf"), st3,
               [EvWrite (stream_id (playback_stream st)) (b :: c);
                EvRecv conn 1024 (Received d); EvLog DEBUG "Frame 1"])).
  { assert (Hw3 : wf (self st3) = Some w) by now rewrite S3.
    destruct (length (conns st2 conn)); cbn [receive_loop];
      rewrite differs_nonempty;
      rewrite (bind_Ret _ _ _ _ _ _ (stream_write_ok st2 _ _ Hs1));
      rewrite (bind_Ret _ _ _ _ _ _ R), bind_log;
      rewrite (bind_Raise _ _ _ _ _ _ (write_to_wave_file_on _ _ _ Hw3));
      reflexivity. }
  rewrite (bind_Raise _ _ _ _ _ _ L).
  cbn [prepend result events final fst snd app].
  repeat split. now rewrite S3.
Qed.

Lemma open_wave_file_breaks_the_handler_witness :
  result (receive_audio Python2 0
            (final (open_wave_file "out.wav" a_receiver)))
    = Raise (NameError "wf").
Proof.
  apply (open_wave_file_breaks_the_handler Python2 0
           (final (open_wave_file "out.wav" a_receiver))
           (wave_header "out.wav" (self a_receiver))
           x61 [x62] [Received [x63]]).
  - discriminate.
  - reflexivity.
  - reflexivity.
  - reflexivity.
Defined.

(** X7: a connection that is closed before it has sent anything is
    handled without error whether or not an output file is open: the
    loop body, and with it the faulty write, is never reached
    (Python 2). *)
Theorem silent_connection_is_handled_with_a_wave_file_open
    (conn : nat) (st : state) :
  audio (self st) <> None ->
  peer_closed (conns st conn) = true ->
  result (receive_audio Python2 conn st) = Ret tt /\
  events (receive_audio Python2 conn st)
    = handler_trace (playback_stream st) conn [].
Proof.
  intros Ha Hp. unfold receive_audio.
  rewrite bind_log, (bind_Ret _ _ _ _ _ _ (open_audio_stream_ok st Ha)).
  set (st1 := with_stream (playback_stream st) st).
  assert (Hs1 : stream (self st1) = Some (playback_stream st)) by reflexivity.
  assert (Hc1 : conns st1 conn = conns st conn) by reflexivity.
  clearbody st1.
  destruct (conns st conn) as [|[[|c r]|e] rest]; try discriminate.
  - rewrite (bind_Ret _ _ _ _ _ _ (recv_closed _ _ _ Hc1)), bind_get.
    rewrite (bind_Ret _ _ _ _ _ _ (receive_loop_stops _ _ _ _)), bind_log.
    rewrite (stream_stop_and_close_ok _ _ Hs1). split; reflexivity.
  - rewrite (bind_Ret _ _ _ _ _ _ (recv_data _ _ _ _ _ Hc1)), bind_get.
    rewrite (bind_Ret _ _ _ _ _ _ (receive_loop_stops _ _ _ _)), bind_log.
    rewrite (stream_stop_and_close_ok (set_conn conn rest st1) _ Hs1).
    split; reflexivity.
Qed.

Lemma silent_connection_is_handled_with_a_wave_file_open_witness :
  result (receive_audio Python2 1
            (final (open_wave_file "out.wav" a_receiver))) = Ret tt.
Proof.
  apply (silent_connection_is_handled_with_a_wave_file_open 1
           (final (open_wave_file "out.wav" a_receiver))).
  - discriminate.
  - reflexivity.
Defined.





End WaveMore.

Section StaleStream.
Import Trx AudioReceiver.
Local Open Scope py_scope.

(** The handler's run on a connection that closes, with the state it
    ends in: [self.stream] still holds the stream it has closed. *)
Lemma receive_audio_keeps_its_stream
    conn st (chunks : list bytes) (rest : list recv_result) :
  audio (self st) <> None ->
  wf (self st) = None ->
  conns st conn = map Received chunks ++ rest ->
  peer_closed rest = true ->
  Forall (fun d => d <> []) chunks ->
  exists st',
    receive_audio Python2 conn st =
      (Ret tt, st', handler_trace (playback_stream st) conn chunks) /\
    self st' = set_stream (Some (playback_stream st)) (self st).
Proof.
  intros Ha Hw Hc Hr Hm. unfold receive_audio.
  rewrite bind_log, (bind_Ret _ _ _ _ _ _ (open_audio_stream_ok st Ha)).
  set (st1 := with_stream (playback_stream st) st).
  assert (Hs1 : stream (self st1) = Some (playback_stream st)) by reflexivity.
  assert (Hw1 : wf (self st1) = None) by exact Hw.
  assert (Hc1 : conns st1 conn = map Received chunks ++ rest) by exact Hc.
  assert (H1 : self st1 = set_stream (Some (playback_stream st)) (self st))
    by reflexivity.
  clearbody st1. unfold handler_trace.
  destruct chunks as [|[|b d] more].
  - simpl in Hc1. destruct rest as [|[[|c r]|e] rest]; try discriminate.
    + rewrite (bind_Ret _ _ _ _ _ _ (recv_closed _ _ _ Hc1)), bind_get.
      rewrite Hc1. cbn [length].
      rewrite (bind_Ret _ _ _ _ _ _ (receive_loop_stops _ _ _ _)), bind_log.
      rewrite (stream_stop_and_close_ok _ _ Hs1).
      eexists; split; [reflexivity | exact H1].
    + rewrite (bind_Ret _ _ _ _ _ _ (recv_data _ _ _ _ _ Hc1)), bind_get.
      rewrite (bind_Ret _ _ _ _ _ _ (receive_loop_stops _ _ _ _)), bind_log.
      rewrite (stream_stop_and_close_ok (set_conn conn rest st1) _ Hs1).
      eexists; split; [reflexivity | exact H1].
  - inversion Hm; congruence.
  - inversion Hm as [|? ? Hd Hm']; subst.
    set (st2 := set_conn conn (map Received more ++ rest) st1).
    destruct (receive_loop_plays conn (playback_stream st) more rest b d 1 st2)
      as [st' [E [S1 S2]]]; auto.
    { apply conns_set_conn. }
    rewrite (bind_Ret _ _ _ _ _ _ (recv_data _ _ _ _ _ Hc1)), bind_get.
    fold st2. rewrite (bind_Ret _ _ _ _ _ _ E), bind_log.
    assert (Hs' : stream (self st') = Some (playback_stream st))
      by now rewrite S1.
    rewrite (stream_stop_and_close_ok _ _ Hs').
    exists st'. split; [reflexivity|]. rewrite S1. exact H1.
Qed.

Lemma loop_trace_closes_nothing sid sid' conn (more : list bytes) :
  forall data frame,
  filter (is_stream_close sid') (loop_trace sid conn data more frame) = [].
Proof.
  induction more as [|d more IH]; intros data frame; [reflexivity|].
  cbn [loop_trace filter is_stream_close]. apply IH.
Qed.

Lemma handler_trace_closes_once s conn (chunks : list bytes) :
  count (is_stream_close (stream_id s)) (handler_trace s conn chunks) = 1%nat.
Proof.
  unfold count, handler_trace. cbn [filter is_stream_close].
  rewrite filter_app.
  assert (E : filter (is_stream_close (stream_id s))
                match chunks with
                | [] => []
                | d :: more => loop_trace (stream_id s) conn d more 1
                end = [])
    by (destruct chunks; [reflexivity | apply loop_trace_closes_nothing]).
  rewrite E. cbn [app filter is_stream_close]. now rewrite Nat.eqb_refl.
Qed.

(** X10: the handler closes its stream but leaves it in [self.stream]:
    a shutdown that follows a served connection stops and closes that
    same stream once more, so the stream is closed twice in all. *)
Theorem shutdown_after_a_connection_closes_its_stream_again
    (conn : nat) (st : state) (chunks : list bytes)
    (rest : list recv_result) :
  audio (self st) <> None ->
  wf (self st) = None ->
  conns st conn = map Received chunks ++ rest ->
  peer_closed rest = true ->
  Forall (fun d => d <> []) chunks ->
  result ((receive_audio Python2 conn ;; shutdown) st) = Ret tt /\
  events ((receive_audio Python2 conn ;; shutdown) st)
    = handler_trace (playback_stream st) conn chunks ++
      release_calls (set_stream (Some (playback_stream st)) (self st)) /\
  count (is_stream_close (opened st))
    (events ((receive_audio Python2 conn ;; shutdown) st)) = 2%nat.
Proof.
  intros Ha Hw Hc Hr Hm.
  destruct (receive_audio_keeps_its_stream conn st chunks rest Ha Hw Hc Hr Hm)
    as [st' [E S1]].
  rewrite (bind_Ret _ _ _ _ _ _ E), shutdown_ok, S1.
  cbn [prepend result events fst snd]. repeat split.
  unfold count. rewrite filter_app, length_app.
  change (opened st) with (stream_id (playback_stream st)).
  fold (count (is_stream_close (stream_id (playback_stream st)))
          (handler_trace (playback_stream st) conn chunks)).
  rewrite handler_trace_closes_once.
  unfold release_calls. cbn [stream set_stream audio sock].
  destruct (audio (self st)), (sock (self st));
    cbn [app filter is_stream_close length];
    rewrite Nat.eqb_refl; reflexivity.
Qed.

Lemma shutdown_after_a_connection_closes_its_stream_again_witness :
  count (is_stream_close (opened a_receiver))
    (events ((receive_audio Python2 0 ;; shutdown) a_receiver)) = 2%nat.
Proof.
  apply (shutdown_after_a_connection_closes_its_stream_again 0 a_receiver
           [[x61; x62]; [x63]] []).
  - discriminate.
  - reflexivity.
  - reflexivity.
  - reflexivity.
  - repeat constructor; discriminate.
Defined.

End StaleStream.

(** ** The sender: what it sends, and its loop bound at the edges *)

Section SenderMore.
Import Trx AudioSender.
Local Open Scope py_scope.

Lemma concat_sent_send_trace sid fr mc len n :
  forall pos,
  concat (sent_chunks (send_trace sid fr mc pos len n))
    = map mc (seq pos (n * len)).
Proof.
  induction n as [|n IH]; intros pos; [reflexivity|].
  change (sent_chunks (send_trace sid fr mc pos len (S n)))
    with (map mc (seq pos len) ::
          sent_chunks (send_trace sid fr mc (pos + len) len n)).
  cbn [concat Nat.mul]. now rewrite IH, seq_app, map_app.
Qed.

Lemma sent_chunks_main_tx_trace args st k (post : list event) :
  sent_chunks post = [] ->
  sent_chunks (tx_head args ++ start_trace (tx_state args st) ++
               send_trace (opened st) (arg_chunk_size args) (mic st)
                 (mic_pos st) (chunk_bytes (self (tx_state args st))) k ++
               post)
    = sent_chunks (send_trace (opened st) (arg_chunk_size args) (mic st)
                     (mic_pos st) (chunk_bytes (self (tx_state args st))) k).
Proof.
  intros H. rewrite app_assoc, sent_chunks_app, sent_chunks_head.
  cbn [app]. rewrite sent_chunks_app, H. apply app_nil_r.
Qed.

(** The events of the [--tx] branch, in each of its three courses, are
    its opening events, a number of rounds of [send_frame], and events
    that send and release nothing. *)
Lemma main_tx_shape py args fuel st :
  exists k post,
    events (main_tx py args fuel st) =
      tx_head args ++ start_trace (tx_state args st) ++
      send_trace (opened st) (arg_chunk_size args) (mic st) (mic_pos st)
        (chunk_bytes (self (tx_state args st))) k ++ post /\
    sent_chunks post = [] /\ filter is_release post = [].
Proof.
  destruct (Z.eq_dec (arg_duration args) 0) as [Hd|Hd].
  - rewrite (main_tx_unlimited py args fuel st Hd).
    exists fuel, []. now rewrite app_nil_r.
  - destruct (frames_to_send py (arg_rate args) (arg_chunk_size args)
                (arg_duration args)) as [e|n] eqn:E.
    + rewrite (main_tx_fails py args fuel st e Hd E). exists 0%nat, [].
      cbn [send_trace app]. now rewrite app_nil_r.
    + rewrite (main_tx_limited py args fuel st n Hd E).
      exists (Z.to_nat n), [EvLog INFO "Finished audio capture"].
      repeat split.
Qed.

(** X13: under either interpreter and for all arguments, what the
    [--tx] branch has sent, put end to end, is the samples of the
    capture device from where it stood, in order, none missing and none
    twice: as many as the chunks sent times the chunk length. *)
Theorem sender_sends_the_samples_in_order
    (py : python) (args : Args) (fuel : nat) (st : state) :
  concat (sent_chunks (events (main_tx py args fuel st)))
    = map (mic st)
        (seq (mic_pos st)
           (length (sent_chunks (events (main_tx py args fuel st)))
            * Z.to_nat (arg_chunk_size args * arg_channels args * 2))).
Proof.
  destruct (main_tx_shape py args fuel st) as [k [post [E [S _]]]].
  rewrite E, (sent_chunks_main_tx_trace args st k post S).
  rewrite (proj1 (sent_chunks_send_trace _ _ _ _ _ _)).
  apply concat_sent_send_trace.
Qed.

(** X14: on no course of the [--tx] branch itself (time limit reached,
    loop bound not computable, loop still running) is the stream
    stopped or closed, PyAudio terminated or the socket closed. *)
Theorem tx_branch_releases_nothing
    (py : python) (args : Args) (fuel : nat) (st : state) :
  filter is_release (events (main_tx py args fuel st)) = [].
Proof.
  destruct (main_tx_shape py args fuel st) as [k [post [E [_ R]]]].
  rewrite E, !filter_app, send_trace_keeps_handles, R. reflexivity.
Qed.

Lemma frames_to_send_zero_chunk py r d :
  frames_to_send py r 0 d = inl ZeroDivisionError.
Proof. now destruct py. Qed.

(** X15: with a chunk size of 0 and a duration limit, under either
    interpreter, the loop bound divides by zero: the branch raises
    [ZeroDivisionError] once the socket is connected and the stream
    open, and has sent nothing. *)
Theorem zero_chunk_size_with_a_limit_divides_by_zero
    (py : python) (args : Args) (fuel : nat) (st : state) :
  arg_chunk_size args = 0 ->
  arg_duration args <> 0 ->
  main_tx py args fuel st =
    (Raise ZeroDivisionError,
     with_stream (capture_stream (tx_state args st)) (tx_state args st),
     tx_head args ++ start_trace (tx_state args st)).
Proof.
  intros Hc Hd. apply main_tx_fails; [exact Hd|].
  rewrite Hc. apply frames_to_send_zero_chunk.
Qed.

Lemma zero_chunk_size_with_a_limit_divides_by_zero_witness :
  result (main_tx Python3
            {| arg_rate := 44100; arg_chunk_size := 0; arg_channels := 1;
               arg_device_index := None; arg_duration := 5; arg_host := "";
               arg_port := 50007;
               arg_sock_timeout := arg_sock_timeout default_args |}
            0 (boot two_chunks silence))
    = Raise ZeroDivisionError.
Proof.
  rewrite (zero_chunk_size_with_a_limit_divides_by_zero Python3
             {| arg_rate := 44100; arg_chunk_size := 0; arg_channels := 1;
                arg_device_index := None; arg_duration := 5; arg_host := "";
                arg_port := 50007;
                arg_sock_timeout := arg_sock_timeout default_args |}
             0 (boot two_chunks silence)).
  - reflexivity.
  - reflexivity.
  - discriminate.
Defined.

(** X16: under Python 2, with a positive chunk size, a rate that is
    not negative and a positive duration [D], the frames sent never
    exceed [rate * D], and fall short of it by less than [D] chunks. *)
Theorem python2_sender_stays_within_the_duration
    (args : Args) (fuel : nat) (st : state) :
  0 < arg_chunk_size args ->
  0 <= arg_rate args ->
  0 < arg_duration args ->
  Z.of_nat (length (sent_chunks (events (main_tx Python2 args fuel st))))
    = arg_rate args / arg_chunk_size args * arg_duration args /\
  Z.of_nat (length (sent_chunks (events (main_tx Python2 args fuel st))))
    * arg_chunk_size args <= arg_rate args * arg_duration args /\
  arg_rate args * arg_duration args
    - arg_chunk_size args * arg_duration args
    < Z.of_nat (length (sent_chunks (events (main_tx Python2 args fuel st))))
      * arg_chunk_size args.
Proof.
  intros Hc Hr Hd.
  assert (E : frames_to_send Python2 (arg_rate args) (arg_chunk_size args)
                (arg_duration args)
              = inr (arg_rate args / arg_chunk_size args * arg_duration args)).
  { unfold frames_to_send.
    destruct (arg_chunk_size args =? 0) eqn:Z0; [|reflexivity].
    apply Z.eqb_eq in Z0. lia. }
  rewrite (main_tx_limited Python2 args fuel st _ ltac:(lia) E).
  unfold events. cbn [snd].
  rewrite (sent_chunks_main_tx_trace args st _
             [EvLog INFO "Finished audio capture"] eq_refl).
  rewrite (proj1 (sent_chunks_send_trace _ _ _ _ _ _)).
  pose proof (Z.div_pos (arg_rate args) (arg_chunk_size args) Hr Hc) as Q.
  pose proof (Z.mul_div_le (arg_rate args) (arg_chunk_size args) Hc) as L.
  pose proof (Z.mul_succ_div_gt (arg_rate args) (arg_chunk_size args) Hc) as G.
  rewrite Z2Nat.id by nia. repeat split; nia.
Qed.

Lemma python2_sender_stays_within_the_duration_witness :
  Z.of_nat (length (sent_chunks (events
     (main_tx Python2 (with_duration 100) 0 (boot two_chunks silence)))))
    = 44100 / 1024 * 100.
Proof.
  apply (python2_sender_stays_within_the_duration (with_duration 100) 0
           (boot two_chunks silence)); cbn; lia.
Defined.

End SenderMore.

(** ** A negative duration *)

Section NegativeDuration.
Import Trx AudioSender.

Lemma binary_round_aux_has_sign sx mx ex lx :
  has_sign sx (binary_round_aux prec emax sx mx ex lx).
Proof.
  unfold binary_round_aux.
  destruct (shr_fexp prec emax mx ex lx) as [mrs' e'].
  destruct (shr_fexp prec emax _ e' loc_Exact) as [mrs'' e''].
  destruct (shr_m mrs''); [reflexivity | | exact I].
  destruct (e'' <=? emax - prec); reflexivity.
Qed.

Lemma SFmul_has_sign s1 s2 x y :
  has_sign s1 x -> has_sign s2 y ->
  has_sign (xorb s1 s2) (SFmul prec emax x y).
Proof.
  destruct x, y; cbn [has_sign SFmul]; intros; subst; auto.
  apply binary_round_aux_has_sign.
Qed.

Lemma quotient_has_sign r c :
  0 <= r -> 0 < c ->
  has_sign false (SFdiv prec emax (exact_of_Z r) (exact_of_Z c)).
Proof.
  intros Hr Hc. destruct c as [|c|c]; try lia.
  destruct r as [|r|r]; try lia; cbn [exact_of_Z SFdiv xorb has_sign].
  - reflexivity.
  - destruct (SFdiv_core_binary prec emax (Z.pos r) 0 (Z.pos c) 0)
      as [[mz ez] lz].
    apply binary_round_aux_has_sign.
Qed.

Lemma negative_int_has_sign d :
  d < 0 -> has_sign true (binary_normalize prec emax d 0 false).
Proof.
  intros Hd. destruct d as [|d|d]; try lia.
  cbn [binary_normalize]. unfold binary_round.
  destruct (shl_align d 0 _) as [mz ez]. apply binary_round_aux_has_sign.
Qed.

Lemma int_of_negative_float x n :
  has_sign true x -> int_of_float x = inr n -> n <= 0.
Proof.
  destruct x as [s|s| |s m e]; cbn [has_sign int_of_float];
    intros H [= <-]; subst; try lia.
  destruct e as [|e|e].
  - rewrite Z.shiftl_0_r. lia.
  - pose proof (Z.shiftl_nonneg (Z.pos m) (Z.pos e)). lia.
  - pose proof (Z.shiftr_nonneg (Z.pos m) (Z.pos e)). lia.
Qed.

Lemma frames_to_send_negative py r c d n :
  0 <= r -> 0 < c -> d < 0 ->
  frames_to_send py r c d = inr n -> n <= 0.
Proof.
  intros Hr Hc Hd. destruct py; cbn [frames_to_send].
  - destruct (c =? 0); [discriminate|]. intros [= <-].
    pose proof (Z.div_pos r c Hr Hc). nia.
  - unfold true_div, float_of_int.
    destruct (c =? 0); [discriminate|].
    pose proof (quotient_has_sign r c Hr Hc) as Q.
    pose proof (negative_int_has_sign d Hd) as D.
    destruct (SFdiv prec emax (exact_of_Z r) (exact_of_Z c)) as [s|s| |s m e];
      try discriminate;
      (destruct (binary_normalize prec emax d 0 false) as [s'|s'| |s' m' e'];
       try discriminate;
       intros H; refine (int_of_negative_float _ n _ H);
       change true with (xorb false true);
       apply SFmul_has_sign; assumption).
Qed.

(** X17: a negative duration counts as a limit, and one that is
    reached at once: under either interpreter, with a positive chunk
    size and a rate that is not negative, the [--tx] branch sends no
    chunk at all. *)
Theorem negative_duration_sends_nothing
    (py : python) (args : Args) (fuel : nat) (st : state) :
  0 < arg_chunk_size args ->
  0 <= arg_rate args ->
  arg_duration args < 0 ->
  sent_chunks (events (main_tx py args fuel st)) = [] /\
  result (main_tx py args fuel st) <> Running.
Proof.
  intros Hc Hr Hd.
  destruct (frames_to_send py (arg_rate args) (arg_chunk_size args)
              (arg_duration args)) as [e|n] eqn:E.
  - rewrite (main_tx_fails py args fuel st e ltac:(lia) E).
    split; [reflexivity | discriminate].
  - rewrite (main_tx_limited py args fuel st n ltac:(lia) E).
    pose proof (frames_to_send_negative _ _ _ _ _ Hr Hc Hd E) as N.
    split; [|discriminate].
    unfold events. cbn [snd].
    rewrite (sent_chunks_main_tx_trace args st _
               [EvLog INFO "Finished audio capture"] eq_refl).
    replace (Z.to_nat n) with 0%nat by lia. reflexivity.
Qed.

Lemma negative_duration_sends_nothing_witness :
  sent_chunks (events
     (main_tx Python3 (with_duration (-3)) 7 (boot two_chunks silence))) = [].
Proof.
  apply (negative_duration_sends_nothing Python3 (with_duration (-3)) 7
           (boot two_chunks silence)); cbn; lia.
Defined.

End NegativeDuration.

(** ** The device listing *)

Section Devices.
Import Trx.

Lemma percent_d_rate_printable d :
  printable_rate d = true ->
  exists r, percent_d_rate (d_defaultSampleRate d) = inr r.
Proof.
  unfold printable_rate, percent_d_rate.
  destruct (d_defaultSampleRate d) as [[s|s| |s m e]|]; try discriminate;
    intros _; eexists; reflexivity.
Qed.

Lemma percent_d_rate_unprintable d :
  printable_rate d = false ->
  exists e, percent_d_rate (d_defaultSampleRate d) = inl e /\
            (e = OverflowError \/ e = ValueError).
Proof.
  unfold printable_rate, percent_d_rate.
  destruct (d_defaultSampleRate d) as [[s|s| |s m e]|]; try discriminate;
    intros _; eexists; split; try reflexivity; auto.
Qed.

Lemma print_devices_printable default (devinfos : list devinfo) :
  forall i,
  forallb printable_rate devinfos = true ->
  snd (print_devices default i devinfos) = None /\
  length (fst (print_devices default i devinfos))
    = (3 * length devinfos)%nat /\
  forall k d,
    nth_error devinfos k = Some d ->
    nth_error (fst (print_devices default i devinfos)) (3 * k)
      = Some (string_of_Z (i + Z.of_nat k) ++ ": " ++ get_or (d_name d) "?"
              ++ def_string default d)%string.
Proof.
  induction devinfos as [|d0 devinfos IH]; intros i H.
  - repeat split. intros [|k] d; discriminate.
  - cbn [forallb] in H. apply andb_prop in H. destruct H as [H0 H].
    destruct (percent_d_rate_printable d0 H0) as [r R].
    destruct (IH (i + 1) H) as [E [L N]].
    cbn [print_devices]. rewrite R.
    destruct (print_devices default (i + 1) devinfos) as [lines e].
    cbn [fst snd] in *. split; [exact E | split].
    + cbn [length]. lia.
    + intros [|k] d Hk.
      * injection Hk as <-. cbn [Nat.mul nth_error]. now rewrite Z.add_0_r.
      * cbn [nth_error] in Hk.
        replace (3 * S k)%nat with (S (S (S (3 * k)))) by lia.
        cbn [nth_error]. rewrite (N k d Hk). do 2 f_equal. f_equal. lia.
Qed.

(** X18: when every sample rate can be printed, [list_devices] prints
    three lines for each device and raises nothing; the first line of
    the device at position [k] is its position, its name (or [?]) and
    the default mark, if any. *)
Theorem list_devices_prints_three_lines_each
    (default : devinfo) (devinfos : list devinfo) :
  forallb printable_rate devinfos = true ->
  snd (list_devices default devinfos) = None /\
  length (fst (list_devices default devinfos)) = (3 * length devinfos)%nat /\
  forall k d,
    nth_error devinfos k = Some d ->
    nth_error (fst (list_devices default devinfos)) (3 * k)
      = Some (string_of_Z (Z.of_nat k) ++ ": " ++ get_or (d_name d) "?"
              ++ def_string default d)%string.
Proof.
  intros H. destruct (print_devices_printable default devinfos 0 H)
    as [E [L N]].
  split; [exact E | split; [exact L | exact N]].
Qed.

(** X19: a sample rate that is infinite or not a number stops the
    listing: the devices before the first such one are listed in full,
    of that one only the first line is printed, and [list_devices]
    raises [OverflowError] or [ValueError]. *)
Theorem list_devices_stops_at_an_unprintable_rate
    (default : devinfo) (good : list devinfo) (bad : devinfo)
    (rest : list devinfo) :
  forallb printable_rate good = true ->
  printable_rate bad = false ->
  length (fst (list_devices default (good ++ bad :: rest)))
    = (3 * length good + 1)%nat /\
  (snd (list_devices default (good ++ bad :: rest)) = Some OverflowError \/
   snd (list_devices default (good ++ bad :: rest)) = Some ValueError).
Proof.
  unfold list_devices. generalize 0.
  induction good as [|d0 good IH]; intros i Hg Hb.
  - destruct (percent_d_rate_unprintable bad Hb) as [e [R [-> | ->]]];
      cbn [app print_devices]; rewrite R; cbn [fst snd length]; auto.
  - cbn [forallb] in Hg. apply andb_prop in Hg. destruct Hg as [H0 Hg].
    destruct (percent_d_rate_printable d0 H0) as [r R].
    destruct (IH (i + 1) Hg Hb) as [L E].
    cbn [app print_devices]. rewrite R.
    destruct (print_devices default (i + 1) (good ++ bad :: rest))
      as [lines e].
    cbn [fst snd length] in *. split; [lia | exact E].
Qed.

Lemma def_string_marks default d :
  negb (String.eqb (def_string default d) "") = true <->
  exists i, d_index d = Some i /\ d_index default = Some i.
Proof.
  unfold def_string.
  destruct (d_index d) as [i|], (d_index default) as [j|];
    try (split; [discriminate | intros [k [? ?]]; discriminate]).
  destruct (i =? j) eqn:E.
  - apply Z.eqb_eq in E. subst. split; [eauto | reflexivity].
  - apply Z.eqb_neq in E. split; [discriminate|].
    intros [k [[= <-] [= <-]]]. congruence.
Qed.

Lemma marked_none default j (devinfos : list devinfo) :
  d_index default = Some j -> ~ In j (indices devinfos) ->
  marked default devinfos = [].
Proof.
  intros Hj. induction devinfos as [|d devinfos IH]; intros H; [reflexivity|].
  unfold marked in *. cbn [filter].
  destruct (negb (String.eqb (def_string default d) "")) eqn:M.
  - apply def_string_marks in M. destruct M as [i [Hi Hd]].
    exfalso. apply H. unfold indices. cbn [flat_map]. rewrite Hi.
    left. congruence.
  - apply IH. intros Hin. apply H. unfold indices. cbn [flat_map].
    apply in_or_app. now right.
Qed.

(** X20: the devices marked [(DEFAULT)] are those whose [index] entry
    is present and equal to that of the default output device; if the
    indices of the devices listed are all different, at most one device
    is marked. *)
Theorem list_devices_marks_the_default_device
    (default : devinfo) (devinfos : list devinfo) :
  (forall d, In d (marked default devinfos) <->
             In d devinfos /\
             exists i, d_index d = Some i /\ d_index default = Some i) /\
  (NoDup (indices devinfos) -> (length (marked default devinfos) <= 1)%nat).
Proof.
  split.
  - intros d. unfold marked. rewrite filter_In, def_string_marks. reflexivity.
  - induction devinfos as [|d devinfos IH]; intros H; [cbn; lia|].
    unfold marked in *. cbn [filter].
    destruct (negb (String.eqb (def_string default d) "")) eqn:M.
    + apply def_string_marks in M. destruct M as [i [Hi Hd]].
      unfold indices in H. cbn [flat_map] in H. rewrite Hi in H.
      cbn [app] in H. inversion H as [|? ? Hn Hnd]; subst.
      fold (marked default devinfos).
      rewrite (marked_none default i devinfos Hd Hn). cbn. lia.
    + apply IH. unfold indices in H. cbn [flat_map] in H.
      now apply NoDup_app_remove_l in H.
Qed.

Lemma list_devices_marks_the_default_device_witness :
  (length (marked dev_out [dev_in; dev_out]) <= 1)%nat.
Proof.
  apply (proj2 (list_devices_marks_the_default_device dev_out
                  [dev_in; dev_out])).
  repeat constructor; cbn; intuition discriminate.
Defined.

Lemma list_devices_prints_three_lines_each_witness :
  list_devices dev_out [dev_in; dev_out] =
    (["0: in"; "    Default sample rate: 44100";
      "    Max input/output channels: 1/0";
      "1: out (DEFAULT)"; "    Default sample rate: 48000";
      "    Max input/output channels: 0/2"]%string, None) /\
  length (fst (list_devices dev_out [dev_in; dev_out])) = (3 * 2)%nat.
Proof.
  split; [vm_compute; reflexivity|].
  apply (list_devices_prints_three_lines_each dev_out [dev_in; dev_out]).
  reflexivity.
Defined.

Lemma list_devices_stops_at_an_unprintable_rate_witness :
  length (fst (list_devices dev_out ([dev_in] ++ dev_bad :: [dev_out])))
    = (3 * 1 + 1)%nat.
Proof.
  apply (list_devices_stops_at_an_unprintable_rate dev_out [dev_in] dev_bad
           [dev_out]); reflexivity.
Defined.

End Devices.

(** ** Several connections, one after the other *)

Section InOrder.
Import Trx AudioReceiver.
Local Open Scope py_scope.

Lemma final_prepend {A} t (r : outcome A * state * list event) :
  final (prepend t r) = final r.
Proof. now destruct r as [[o st] t']. Qed.

Lemma keeps_bind conn {A B} (m : M A) (k : A -> M B) :
  keeps_other_conns conn m -> (forall a, keeps_other_conns conn (k a)) ->
  keeps_other_conns conn (bind m k).
Proof.
  intros Hm Hk st c Hc. specialize (Hm st c Hc). unfold bind, final in *.
  destruct (m st) as [[[a|e|] st1] t1]; cbn [fst snd] in *; auto.
  specialize (Hk a st1 c Hc). unfold final in Hk.
  destruct (k a st1) as [[o st2] t2]. cbn [prepend fst snd] in *. congruence.
Qed.

Lemma keeps_still conn {A} (m : M A) :
  (forall st, final (m st) = st) -> keeps_other_conns conn m.
Proof. intros H st c _. now rewrite H. Qed.

Lemma keeps_if conn {A} (b : bool) (m1 m2 : M A) :
  keeps_other_conns conn m1 -> keeps_other_conns conn m2 ->
  keeps_other_conns conn (if b then m1 else m2).
Proof. now destruct b. Qed.

Lemma keeps_log conn l msg : keeps_other_conns conn (log l msg).
Proof. now apply keeps_still. Qed.

Lemma keeps_recv conn n : keeps_other_conns conn (recv conn n).
Proof.
  intros st c Hc. unfold recv, final.
  destruct (conns st conn) as [|[d|e] l]; cbn [fst snd set_conn conns]; auto;
    apply Nat.eqb_neq in Hc; now rewrite Hc.
Qed.

Lemma keeps_open_audio_stream conn : keeps_other_conns conn open_audio_stream.
Proof.
  unfold open_audio_stream. apply keeps_bind; [now apply keeps_still|].
  intros o. destruct (audio o); [|now apply keeps_still].
  apply keeps_bind.
  - intros st c _. now destruct (get_format_from_width width).
  - intros fmt st c _. unfold audio_open, final.
    now destruct (audio (self st)).
Qed.

Lemma keeps_stream_write conn data : keeps_other_conns conn (stream_write data).
Proof.
  unfold stream_write. apply keeps_bind; [now apply keeps_still|].
  intros o. destruct (stream o); now apply keeps_still.
Qed.

Lemma keeps_stream_stop_and_close conn :
  keeps_other_conns conn stream_stop_and_close.
Proof.
  unfold stream_stop_and_close. apply keeps_bind; [now apply keeps_still|].
  intros o. destruct (stream o); [|now apply keeps_still].
  apply keeps_bind; intros; now apply keeps_still.
Qed.

Lemma keeps_write_to_wave_file conn data :
  keeps_other_conns conn (write_to_wave_file data).
Proof.
  unfold write_to_wave_file. apply keeps_bind; [now apply keeps_still|].
  intros o. destruct (wf o); [|now apply keeps_still].
  apply keeps_bind; [|intros; now apply keeps_still].
  unfold global_name. apply keeps_if; now apply keeps_still.
Qed.

Lemma keeps_receive_loop py conn n :
  forall data frame,
  keeps_other_conns conn (receive_loop py conn n data frame).
Proof.
  induction n as [|n IH]; intros data frame; cbn [receive_loop];
    (apply keeps_if; [|now apply keeps_still]);
    (apply keeps_bind; [apply keeps_stream_write | intros _]);
    (apply keeps_bind; [apply keeps_recv | intros data']);
    (apply keeps_bind; [apply keeps_log | intros _]);
    (apply keeps_bind; [apply keeps_write_to_wave_file | intros _]).
  - apply keeps_if; now apply keeps_still.
  - apply IH.
Qed.

(** Handling a connection consumes reads of that connection only. *)
Lemma keeps_receive_audio py conn :
  keeps_other_conns conn (receive_audio py conn).
Proof.
  unfold receive_audio.
  apply keeps_bind; [apply keeps_log | intros _].
  apply keeps_bind; [apply keeps_open_audio_stream | intros _].
  apply keeps_bind; [apply keeps_recv | intros data].
  apply keeps_bind; [now apply keeps_still | intros st].
  apply keeps_bind; [apply keeps_receive_loop | intros _].
  apply keeps_bind; [apply keeps_log | intros _].
  apply keeps_stream_stop_and_close.
Qed.

Lemma played_app t1 t2 : played (t1 ++ t2) = played t1 ++ played t2.
Proof. apply flat_map_app. Qed.

Lemma in_service_after (t : list event) :
  forall b b', sequential b t = Some b' ->
               in_service_from (Nat.b2n b) t = Nat.b2n b'.
Proof.
  induction t as [|e t IH]; intros b b' H.
  - injection H as <-. reflexivity.
  - destruct e, b; cbn [sequential in_service_from Nat.b2n pred] in *;
      first [ discriminate | apply (IH true); exact H
            | apply (IH false); exact H ].
Qed.

Lemma accept_loop_plays_in_order (script : nat -> list bytes)
    (callers : list (nat * address)) :
  forall bound st,
  audio (self st) <> None ->
  wf (self st) = None ->
  NoDup (map fst callers) ->
  (forall c, In c (map fst callers) ->
             conns st c = map Received (script c) /\
             Forall (fun d => d <> []) (script c)) ->
  exists st' t,
    accept_loop Python2 (all_accepted callers) bound st = (Running, st', t) /\
    played t = flat_map (fun ca => script (fst ca)) callers /\
    sequential false t = Some false.
Proof.
  induction callers as [|[c a] callers IH]; intros bound st Ha Hw Hn Hs.
  - exists st, []. repeat split.
  - inversion Hn as [|? ? Hc Hn']; subst.
    destruct (Hs c (or_introl eq_refl)) as [Sc Fc].
    assert (Sc' : conns st c = map Received (script c) ++ [])
      by now rewrite app_nil_r.
    destruct (receive_audio_keeps_its_stream c st (script c) [] Ha Hw Sc'
                eq_refl Fc) as [st1 [E S1]].
    destruct (IH (Some (c, a)) st1) as [st' [t [L [P Q]]]].
    + rewrite S1. exact Ha.
    + rewrite S1. exact Hw.
    + exact Hn'.
    + intros c' Hc'. pose proof (keeps_receive_audio Python2 c st c') as K.
      rewrite E in K. cbn [final fst snd] in K. rewrite K.
      * apply Hs. now right.
      * intros ->. contradiction.
    + cbn [all_accepted map fst snd].
      rewrite (accept_loop_accepted Python2 c a _ bound st st1 _ E).
      fold (all_accepted callers). rewrite L. cbn [prepend].
      eexists _, _. split; [reflexivity | split].
      * cbn [app played flat_map fst]. rewrite played_app, played_app.
        rewrite played_handler_trace, P. cbn [played flat_map app].
        now rewrite app_nil_r.
      * cbn [app sequential].
        pose proof (quietly_receive_audio Python2 c st) as QT.
        rewrite E in QT. cbn [events snd] in QT.
        rewrite <- app_assoc, sequential_app, (sequential_quiet _ QT).
        cbn [app sequential]. exact Q.
Qed.

(** X21: callers that all get through, on distinct connections each of
    which delivers its chunks and closes, are served in the order they
    were accepted: the playback device gets the chunks of the first,
    then those of the second, and so on, each connection complete
    before the next [accept], and the loop is then waiting again
    (Python 2). *)
Theorem connections_are_played_in_order
    (script : nat -> list bytes) (callers : list (nat * address))
    (st : state) :
  audio (self st) <> None ->
  sock (self st) <> None ->
  wf (self st) = None ->
  NoDup (map fst callers) ->
  (forall c, In c (map fst callers) ->
             conns st c = map Received (script c) /\
             Forall (fun d => d <> []) (script c)) ->
  result (listen_and_process Python2 (all_accepted callers) st) = Running /\
  played (events (listen_and_process Python2 (all_accepted callers) st))
    = flat_map (fun ca => script (fst ca)) callers /\
  in_service (events (listen_and_process Python2 (all_accepted callers) st))
    = 0%nat.
Proof.
  intros Ha Hk Hw Hn Hs.
  rewrite (listen_and_process_begins Python2 _ st Hk).
  destruct (accept_loop_plays_in_order script callers None st Ha Hw Hn Hs)
    as [st' [t [L [P Q]]]].
  rewrite L. cbn [prepend result events fst snd].
  split; [reflexivity | split].
  - rewrite played_app. exact P.
  - apply (in_service_after _ false false).
    cbn [listen_trace app sequential]. exact Q.
Qed.

Lemma connections_are_played_in_order_witness :
  played (events (listen_and_process Python2
                    (all_accepted [(0%nat, ("192.0.2.1"%string, 40000));
                                   (1%nat, ("192.0.2.2"%string, 40001))])
                    (set_conn 1 [Received [x64]] a_receiver)))
    = [[x61; x62]; [x63]; [x64]].
Proof.
  apply (connections_are_played_in_order
           (fun c => match c with
                     | O => [[x61; x62]; [x63]]
                     | _ => [[x64]]
                     end)
           [(0%nat, ("192.0.2.1"%string, 40000));
            (1%nat, ("192.0.2.2"%string, 40001))]
           (set_conn 1 [Received [x64]] a_receiver)).
  - discriminate.
  - discriminate.
  - reflexivity.
  - repeat constructor; cbn; intuition discriminate.
  - intros c [<- | [<- | []]]; split; try reflexivity;
      repeat constructor; discriminate.
Defined.

End InOrder.
